(** * pam_recent: the session hook of [pam_recent.c], embedded and verified

    The module has one operation of substance, [pam_sm_open_session]
    (pam_recent.c, lines 101-217): it validates its one or two arguments,
    builds the path of the recent-list pseudo-file, resolves PAM_RHOST to
    an address and writes one directive line.  Everything it does to the
    outside world goes through libc and libpam; those calls are modelled
    as oracles of a [world] record and are recorded, in order, in a trace
    of [event]s.  The C function is written in a small monad that threads
    the trace and the two error globals and supports [return]. *)

From Stdlib Require Import ZArith List String Ascii Bool Lia DecimalString.
From Stdlib Require Import Strings.Byte.
Import ListNotations.

Local Open Scope string_scope.
Local Open Scope Z_scope.

(* ================================================================== *)
(** ** C strings *)

(** A C string is the run of bytes before its terminator; it is modelled by
    its content.  The models of the libc functions below read the string
    byte by byte as the C functions do: the end of the content reads as the
    terminator 0, and a zero byte inside the content would end the string
    there.  [nul_free] says that a Rocq string is the content of a C string. *)

Definition code (c : ascii) : Z := Z.of_N (N_of_ascii c).

Definition nl : string := String "010"%char "".
Definition dq : string := String "034"%char "".

Fixpoint nul_free (s : string) : bool :=
  match s with
  | EmptyString => true
  | String c r => negb (code c =? 0) && nul_free r
  end.

(** [*s]: the first byte, the terminator when the content is empty. *)
Definition peek (s : string) : Z :=
  match s with
  | EmptyString => 0
  | String c _ => code c
  end.

(** [s + n] for a pointer into a string, never moving past the terminator. *)
Fixpoint skip (n : nat) (s : string) : string :=
  match n, s with
  | O, _ => s
  | S n', String _ r => skip n' r
  | S _, EmptyString => EmptyString
  end.

(** The content of the C string that starts where [s] starts. *)
Fixpoint c_str (s : string) : string :=
  match s with
  | EmptyString => EmptyString
  | String c r => if code c =? 0 then EmptyString else String c (c_str r)
  end.

(** [tolower] in the C locale. *)
Definition tolower (c : Z) : Z :=
  if (65 <=? c) && (c <=? 90) then c + 32 else c.

Fixpoint strcmp (s1 s2 : string) : Z :=
  match s1 with
  | EmptyString => 0 - peek s2
  | String a r1 =>
      let c1 := code a in
      let c2 := peek s2 in
      if c1 =? c2
      then if c1 =? 0 then 0 else strcmp r1 (skip 1 s2)
      else c1 - c2
  end.

Fixpoint strncmp (s1 s2 : string) (n : nat) : Z :=
  match n with
  | O => 0
  | S n' =>
      let c1 := peek s1 in
      let c2 := peek s2 in
      if c1 =? c2
      then if c1 =? 0 then 0 else strncmp (skip 1 s1) (skip 1 s2) n'
      else c1 - c2
  end.

Fixpoint strncasecmp (s1 s2 : string) (n : nat) : Z :=
  match n with
  | O => 0
  | S n' =>
      let c1 := tolower (peek s1) in
      let c2 := tolower (peek s2) in
      if c1 =? c2
      then if c1 =? 0 then 0 else strncasecmp (skip 1 s1) (skip 1 s2) n'
      else c1 - c2
  end.

(** [strchr s c]: the suffix starting at the first [c], [None] for NULL. *)
Fixpoint strchr (s : string) (c : ascii) : option string :=
  match s with
  | EmptyString => if code c =? 0 then Some EmptyString else None
  | String a r =>
      if code a =? code c then Some s
      else if code a =? 0 then None
      else strchr r c
  end.

(** [snprintf(buf, size, "%s/%s", a, b)]: the formatted text, cut to the
    [size - 1] bytes that fit before the terminator.  The return value is
    not used by the module. *)
Definition snprintf_path (size : nat) (a b : string) : string :=
  substring 0 (size - 1) (c_str a ++ "/" ++ c_str b).

(* ================================================================== *)
(** ** The outside world *)

(** Constants of the system headers the module includes, with the values
    they have on Linux, the only platform of the module. *)
Definition PAM_SUCCESS : Z := 0.
Definition PAM_SESSION_ERR : Z := 14.
Definition LOG_ERR : Z := 3.
Definition LOG_DEBUG : Z := 7.
Definition AF_INET : Z := 2.
Definition AF_INET6 : Z := 10.
Definition ENOSPC : Z := 28.
Definition EAFNOSUPPORT : Z := 97.

(** The module's own defines (pam_recent.c, lines 88-93). *)
Definition ACTION_REMOVE : string := "-".
Definition ACTION_ADD : string := "+".
Definition NAME : string := "DEFAULT".
Definition MODNAME : string := "pam_recent".
Definition LOCOLD : string := "/proc/net/ipt_recent".
Definition LOCNEW : string := "/proc/net/xt_recent".

(** The two fields of [struct hostent] that the module reads. *)
Record hostent : Type := mk_hostent {
  h_addrtype : Z;
  h_addr_list : list (list byte)
}.

(** What the environment answers during one invocation.  [w_access] is
    [access(path, F_OK)], 0 when an entry exists; [w_pam_rhost] is the
    return code of [pam_get_item(pamh, PAM_RHOST, ...)] and the pointer it
    stores, [None] for NULL; [w_gethostbyname] gives the entry or the value
    left in [h_errno]; [w_inet_ntop6] is libc's text form of a 16-byte
    address; [w_fopen] tells whether a path opens for writing, giving
    [errno] when it does not. *)
Record world : Type := mk_world {
  w_access : string -> Z;
  w_pam_rhost : Z * option string;
  w_gethostbyname : string -> Z + hostent;
  w_inet_ntop6 : list byte -> string;
  w_fopen : string -> Z + unit
}.

(** An argument of a [pam_syslog] call; [pam_strerror] and [strerror] are
    kept as calls on their codes. *)
Inductive log_arg : Type :=
| ArgS (s : string)
| ArgD (n : Z)
| ArgPamStrerror (r : Z)
| ArgStrerror (e : Z).

(** The calls the module makes, as they appear in a trace.  A stream is
    named by the path it was opened on. *)
Inductive event : Type :=
| EvAccess (path : string)
| EvGetItem
| EvGethostbyname (name : string)
| EvInetNtop (af : Z) (src : list byte)
| EvFopen (path : string) (mode : string)
| EvFprintf (f : string) (text : string)
| EvFclose (f : string)
| EvSyslog (priority : Z) (fmt : string) (args : list log_arg).

(** The process state an invocation can touch: the calls made so far and
    the globals [errno] and [h_errno]. *)
Record state : Type := mk_state {
  trace : list event;
  errno : Z;
  h_errno : Z
}.

Definition init_state : state := mk_state [] 0 0.

Definition emit (e : event) (s : state) : state :=
  mk_state (trace s ++ [e]) (errno s) (h_errno s).

(* ================================================================== *)
(** ** A monad for C function bodies *)

(** A computation either yields a value and goes on, or has executed a
    [return] statement. *)
Inductive step (A : Type) : Type :=
| Returned (r : Z)
| Value (a : A).
Arguments Returned {A} r.
Arguments Value {A} a.

Definition M (A : Type) : Type := world -> state -> step A * state.

Definition ret {A : Type} (a : A) : M A := fun _ s => (Value a, s).

Definition bind {A B : Type} (m : M A) (k : A -> M B) : M B :=
  fun w s =>
    match m w s with
    | (Returned r, s') => (Returned r, s')
    | (Value a, s') => k a w s'
    end.

Definition return_ {A : Type} (r : Z) : M A := fun _ s => (Returned r, s).

Notation "x <- m ;; k" := (bind m (fun x => k))
  (at level 61, m at next level, right associativity).
Notation "m ;; k" := (bind m (fun _ => k))
  (at level 61, right associativity).

(** Calling a function whose body is [m]. *)
Definition call (m : M Z) (w : world) (s : state) : Z * state :=
  match m w s with
  | (Returned r, s') => (r, s')
  | (Value r, s') => (r, s')
  end.

(** *** The library calls *)

Definition access (path : string) : M Z :=
  fun w s => (Value (w_access w path), emit (EvAccess path) s).

Definition pam_get_item_RHOST : M (Z * option string) :=
  fun w s => (Value (w_pam_rhost w), emit EvGetItem s).

Definition gethostbyname (name : string) : M (option hostent) :=
  fun w s =>
    let s' := emit (EvGethostbyname name) s in
    match w_gethostbyname w name with
    | inl h => (Value None, mk_state (trace s') (errno s') h)
    | inr e => (Value (Some e), s')
    end.

Definition octet (src : list byte) (i : nat) : string :=
  NilEmpty.string_of_uint (N.to_uint (Byte.to_N (nth i src x00))).

(** The AF_INET case of [inet_ntop]: the format "%u.%u.%u.%u" on the four
    bytes of the address. *)
Definition inet_ntop4 (src : list byte) : string :=
  octet src 0 ++ "." ++ octet src 1 ++ "." ++ octet src 2 ++ "." ++ octet src 3.

(** [inet_ntop(af, src, dst, size)]: the text when it fits in [size] bytes
    with its terminator, otherwise NULL with [errno] set. *)
Definition inet_ntop_text (w : world) (af : Z) (src : list byte) (size : nat)
  : Z + string :=
  let fit (text : string) :=
    if Nat.ltb (String.length text) size then inr text else inl ENOSPC in
  if af =? AF_INET then fit (inet_ntop4 src)
  else if af =? AF_INET6 then fit (w_inet_ntop6 w src)
  else inl EAFNOSUPPORT.

Definition inet_ntop (af : Z) (src : list byte) (size : nat) : M (option string) :=
  fun w s =>
    let s' := emit (EvInetNtop af src) s in
    match inet_ntop_text w af src size with
    | inl e => (Value None, mk_state (trace s') e (h_errno s'))
    | inr text => (Value (Some text), s')
    end.

Definition fopen (path mode : string) : M (option string) :=
  fun w s =>
    let s' := emit (EvFopen path mode) s in
    match w_fopen w path with
    | inl e => (Value None, mk_state (trace s') e (h_errno s'))
    | inr _ => (Value (Some path), s')
    end.

Definition fprintf (f text : string) : M unit :=
  fun _ s => (Value tt, emit (EvFprintf f text) s).

Definition fclose (f : string) : M unit :=
  fun _ s => (Value tt, emit (EvFclose f) s).

Definition pam_syslog (priority : Z) (fmt : string) (args : list log_arg) : M unit :=
  fun _ s => (Value tt, emit (EvSyslog priority fmt args) s).

Definition get_errno : M Z := fun _ s => (Value (errno s), s).
Definition get_h_errno : M Z := fun _ s => (Value (h_errno s), s).

(* ================================================================== *)
(** ** The module *)

(** pam_recent.c, lines 95-98. *)
Definition pam_sm_close_session (flags : Z) (argv : list string) : M Z :=
  return_ PAM_SUCCESS.

(** The block of lines 170-184: the pointer [p] into [rhostname], [None]
    while it is NULL. *)
Definition embedded_ipv4 (rhostname : string) : option string :=
  if strncmp rhostname "::" 2 =? 0 then
    let p := skip 2 rhostname in
    if strncasecmp p "ffff:" 5 =? 0 then Some (skip 5 p) else Some p
  else if strncasecmp rhostname "0:0:0:0:0:" 10 =? 0 then
    let p := skip 10 rhostname in
    if strncasecmp p "0:" 2 =? 0 then Some (skip 2 p)
    else if strncasecmp p "ffff:" 5 =? 0 then Some (skip 5 p)
    else Some p
  else None.

(** pam_recent.c, lines 101-217.  [PATH_MAX] is the size of [fname], from
    the system headers; [argc] is the length of [argv]; the handle [pamh]
    is the [world] the monad reads. *)
Definition pam_sm_open_session (PATH_MAX : nat) (flags : Z) (argv : list string) : M Z :=
  let argc := Z.of_nat (List.length argv) in
  (if (argc <? 1) || (argc >? 2)
   then pam_syslog LOG_ERR ("expected 1 or 2 arguments but got %d" ++ nl) [ArgD argc] ;;
        return_ PAM_SESSION_ERR
   else ret tt) ;;
  remove <- (if strcmp (nth 0 argv "") ACTION_ADD =? 0 then ret 0
             else if strcmp (nth 0 argv "") ACTION_REMOVE =? 0 then ret 1
             else pam_syslog LOG_ERR
                    ("expected " ++ dq ++ "%s" ++ dq ++ " or " ++ dq ++ "%s" ++ dq
                     ++ " as argument, got " ++ dq ++ "%s" ++ dq)
                    [ArgS ACTION_REMOVE; ArgS ACTION_ADD; ArgS (nth 0 argv "")] ;;
                  return_ PAM_SESSION_ERR) ;;
  let dbname := if argc =? 2 then nth 1 argv "" else NAME in
  let fname := snprintf_path PATH_MAX LOCNEW dbname in
  a <- access fname ;;
  let fname := if negb (a =? 0) then snprintf_path PATH_MAX LOCOLD dbname else fname in
  item <- pam_get_item_RHOST ;;
  let r := fst item in
  (if negb (r =? PAM_SUCCESS)
   then pam_syslog LOG_ERR "could not get PAM_RHOST: %s" [ArgPamStrerror r] ;;
        return_ PAM_SESSION_ERR
   else ret tt) ;;
  match snd item with
  | None =>
      pam_syslog LOG_ERR "no PAM_RHOST, not a network login" [] ;;
      return_ PAM_SESSION_ERR
  | Some rhostname =>
      rhost <- gethostbyname rhostname ;;
      rhost <- (match rhost, strchr rhostname ":" with
                | None, Some _ =>
                    match embedded_ipv4 rhostname with
                    | Some p => gethostbyname p
                    | None => ret rhost
                    end
                | _, _ => ret rhost
                end) ;;
      match rhost with
      | None =>
          h <- get_h_errno ;;
          pam_syslog LOG_ERR "could not lookup address for %s: %d"
            [ArgS rhostname; ArgD h] ;;
          return_ PAM_SESSION_ERR
      | Some rhost =>
          address <- inet_ntop (h_addrtype rhost) (nth 0 (h_addr_list rhost) []) 128 ;;
          match address with
          | None =>
              e <- get_errno ;;
              pam_syslog LOG_ERR "address conversion error: %s" [ArgStrerror e] ;;
              return_ PAM_SESSION_ERR
          | Some address =>
              f <- fopen fname "w" ;;
              match f with
              | None =>
                  e <- get_errno ;;
                  pam_syslog LOG_ERR "can't open %s: %s" [ArgS fname; ArgStrerror e] ;;
                  return_ PAM_SESSION_ERR
              | Some f =>
                  fprintf f
                    ((if negb (remove =? 0) then ACTION_REMOVE else ACTION_ADD)
                     ++ address ++ nl) ;;
                  fclose f ;;
                  pam_syslog LOG_DEBUG
                    (if negb (remove =? 0) then "removed %s/%s from list %s"
                     else "added %s/%s to list %s")
                    [ArgS rhostname; ArgS address; ArgS dbname] ;;
                  return_ PAM_SUCCESS
              end
          end
      end
  end.

(** One invocation by the PAM framework, from a given process state. *)
Definition onSessionOpen (PATH_MAX : nat) (w : world) (argv : list string) (s : state)
  : Z * state :=
  call (pam_sm_open_session PATH_MAX 0 argv) w s.

(** The result and the calls of an invocation in a fresh process. *)
Definition hook (PATH_MAX : nat) (w : world) (argv : list string) : Z * list event :=
  let out := onSessionOpen PATH_MAX w argv init_state in
  (fst out, trace (snd out)).

(* ================================================================== *)
(** ** What an invocation leaves behind *)

(** The values the straight-line body computes on its way, as functions of
    the arguments and the world. *)

Definition argc_of (argv : list string) : Z := Z.of_nat (List.length argv).

(** Line 132. *)
Definition dbname_of (argv : list string) : string :=
  if argc_of argv =? 2 then nth 1 argv "" else NAME.

(** The content of [fname] after lines 135-141. *)
Definition target_path (PATH_MAX : nat) (w : world) (dbname : string) : string :=
  if negb (w_access w (snprintf_path PATH_MAX LOCNEW dbname) =? 0)
  then snprintf_path PATH_MAX LOCOLD dbname
  else snprintf_path PATH_MAX LOCNEW dbname.

(** The names handed to the resolver by lines 160-187, in order. *)
Definition names_looked_up (w : world) (rhostname : string) : list string :=
  match w_gethostbyname w rhostname, strchr rhostname ":" with
  | inl _, Some _ =>
      match embedded_ipv4 rhostname with
      | Some p => [rhostname; p]
      | None => [rhostname]
      end
  | _, _ => [rhostname]
  end.

(** The value of [rhost] after line 187, or the value of [h_errno]. *)
Definition resolve (w : world) (rhostname : string) : Z + hostent :=
  match w_gethostbyname w rhostname, strchr rhostname ":" with
  | inl h, Some _ =>
      match embedded_ipv4 rhostname with
      | Some p => w_gethostbyname w p
      | None => inl h
      end
  | r, _ => r
  end.

(** The text line 195 leaves in [address]. *)
Definition presentation (w : world) (rhost : hostent) : Z + string :=
  inet_ntop_text w (h_addrtype rhost) (nth 0 (h_addr_list rhost) []) 128.

(** The resolved address of an invocation that gets as far as having one. *)
Definition resolved_address (w : world) : option string :=
  match w_pam_rhost w with
  | (r, Some rhostname) =>
      if r =? PAM_SUCCESS then
        match resolve w rhostname with
        | inr rhost =>
            match presentation w rhost with
            | inr address => Some address
            | inl _ => None
            end
        | inl _ => None
        end
      else None
  | (_, None) => None
  end.

(** The error records, as the source formats them. *)
Definition log_argc (argc : Z) : event :=
  EvSyslog LOG_ERR ("expected 1 or 2 arguments but got %d" ++ nl) [ArgD argc].
Definition log_mode (arg0 : string) : event :=
  EvSyslog LOG_ERR
    ("expected " ++ dq ++ "%s" ++ dq ++ " or " ++ dq ++ "%s" ++ dq
     ++ " as argument, got " ++ dq ++ "%s" ++ dq)
    [ArgS ACTION_REMOVE; ArgS ACTION_ADD; ArgS arg0].
Definition log_item (r : Z) : event :=
  EvSyslog LOG_ERR "could not get PAM_RHOST: %s" [ArgPamStrerror r].
Definition log_no_rhost : event :=
  EvSyslog LOG_ERR "no PAM_RHOST, not a network login" [].
Definition log_lookup (rhostname : string) (h : Z) : event :=
  EvSyslog LOG_ERR "could not lookup address for %s: %d" [ArgS rhostname; ArgD h].
Definition log_conversion (e : Z) : event :=
  EvSyslog LOG_ERR "address conversion error: %s" [ArgStrerror e].
Definition log_open (fname : string) (e : Z) : event :=
  EvSyslog LOG_ERR "can't open %s: %s" [ArgS fname; ArgStrerror e].
Definition log_done (remove : bool) (rhostname address dbname : string) : event :=
  EvSyslog LOG_DEBUG
    (if remove then "removed %s/%s from list %s" else "added %s/%s to list %s")
    [ArgS rhostname; ArgS address; ArgS dbname].

(** The two accepted shapes of the argument vector. *)
Definition argc_ok (argv : list string) : bool :=
  negb ((argc_of argv <? 1) || (argc_of argv >? 2)).

(** The value of [remove] after lines 116-129, when the mode is accepted. *)
Definition mode_of (arg0 : string) : option bool :=
  if strcmp arg0 ACTION_ADD =? 0 then Some false
  else if strcmp arg0 ACTION_REMOVE =? 0 then Some true
  else None.

Definition marker (remove : bool) : string :=
  if remove then ACTION_REMOVE else ACTION_ADD.

(** The paths of the function, one constructor for each [return]: the
    result and the calls made, in order. *)
Inductive run (PATH_MAX : nat) (w : world) (argv : list string)
  : Z -> list event -> Prop :=
| run_argc :
    argc_ok argv = false ->
    run PATH_MAX w argv PAM_SESSION_ERR [log_argc (argc_of argv)]
| run_mode :
    argc_ok argv = true ->
    mode_of (nth 0 argv "") = None ->
    run PATH_MAX w argv PAM_SESSION_ERR [log_mode (nth 0 argv "")]
| run_item : forall remove r p,
    argc_ok argv = true ->
    mode_of (nth 0 argv "") = Some remove ->
    w_pam_rhost w = (r, p) ->
    r <> PAM_SUCCESS ->
    run PATH_MAX w argv PAM_SESSION_ERR
      [EvAccess (snprintf_path PATH_MAX LOCNEW (dbname_of argv)); EvGetItem;
       log_item r]
| run_no_rhost : forall remove,
    argc_ok argv = true ->
    mode_of (nth 0 argv "") = Some remove ->
    w_pam_rhost w = (PAM_SUCCESS, None) ->
    run PATH_MAX w argv PAM_SESSION_ERR
      [EvAccess (snprintf_path PATH_MAX LOCNEW (dbname_of argv)); EvGetItem;
       log_no_rhost]
| run_lookup : forall remove rhostname h,
    argc_ok argv = true ->
    mode_of (nth 0 argv "") = Some remove ->
    w_pam_rhost w = (PAM_SUCCESS, Some rhostname) ->
    resolve w rhostname = inl h ->
    run PATH_MAX w argv PAM_SESSION_ERR
      ([EvAccess (snprintf_path PATH_MAX LOCNEW (dbname_of argv)); EvGetItem]
       ++ map EvGethostbyname (names_looked_up w rhostname)
       ++ [log_lookup rhostname h])
| run_conversion : forall remove rhostname rhost e,
    argc_ok argv = true ->
    mode_of (nth 0 argv "") = Some remove ->
    w_pam_rhost w = (PAM_SUCCESS, Some rhostname) ->
    resolve w rhostname = inr rhost ->
    presentation w rhost = inl e ->
    run PATH_MAX w argv PAM_SESSION_ERR
      ([EvAccess (snprintf_path PATH_MAX LOCNEW (dbname_of argv)); EvGetItem]
       ++ map EvGethostbyname (names_looked_up w rhostname)
       ++ [EvInetNtop (h_addrtype rhost) (nth 0 (h_addr_list rhost) []);
           log_conversion e])
| run_open : forall remove rhostname rhost address e,
    argc_ok argv = true ->
    mode_of (nth 0 argv "") = Some remove ->
    w_pam_rhost w = (PAM_SUCCESS, Some rhostname) ->
    resolve w rhostname = inr rhost ->
    presentation w rhost = inr address ->
    w_fopen w (target_path PATH_MAX w (dbname_of argv)) = inl e ->
    run PATH_MAX w argv PAM_SESSION_ERR
      ([EvAccess (snprintf_path PATH_MAX LOCNEW (dbname_of argv)); EvGetItem]
       ++ map EvGethostbyname (names_looked_up w rhostname)
       ++ [EvInetNtop (h_addrtype rhost) (nth 0 (h_addr_list rhost) []);
           EvFopen (target_path PATH_MAX w (dbname_of argv)) "w";
           log_open (target_path PATH_MAX w (dbname_of argv)) e])
| run_written : forall remove rhostname rhost address u,
    argc_ok argv = true ->
    mode_of (nth 0 argv "") = Some remove ->
    w_pam_rhost w = (PAM_SUCCESS, Some rhostname) ->
    resolve w rhostname = inr rhost ->
    presentation w rhost = inr address ->
    w_fopen w (target_path PATH_MAX w (dbname_of argv)) = inr u ->
    run PATH_MAX w argv PAM_SUCCESS
      ([EvAccess (snprintf_path PATH_MAX LOCNEW (dbname_of argv)); EvGetItem]
       ++ map EvGethostbyname (names_looked_up w rhostname)
       ++ [EvInetNtop (h_addrtype rhost) (nth 0 (h_addr_list rhost) []);
           EvFopen (target_path PATH_MAX w (dbname_of argv)) "w";
           EvFprintf (target_path PATH_MAX w (dbname_of argv))
             (marker remove ++ address ++ nl);
           EvFclose (target_path PATH_MAX w (dbname_of argv));
           log_done remove rhostname address (dbname_of argv)]).

(* ================================================================== *)
(** ** Reading a trace *)

Definition is_probe (e : event) : bool :=
  match e with EvAccess _ => true | _ => false end.
Definition is_lookup (e : event) : bool :=
  match e with EvGethostbyname _ => true | _ => false end.
Definition is_write (e : event) : bool :=
  match e with EvFprintf _ _ => true | _ => false end.
Definition is_close (e : event) : bool :=
  match e with EvFclose _ => true | _ => false end.
Definition is_error_log (e : event) : bool :=
  match e with EvSyslog p _ _ => p =? LOG_ERR | _ => false end.

(** The stream and text of every [fprintf], in order. *)
Fixpoint writes (tr : list event) : list (string * string) :=
  match tr with
  | [] => []
  | EvFprintf f text :: r => (f, text) :: writes r
  | _ :: r => writes r
  end.

(** The paths handed to [fopen], [access] and the names handed to
    [gethostbyname], in order. *)
Fixpoint opens (tr : list event) : list string :=
  match tr with
  | [] => []
  | EvFopen path _ :: r => path :: opens r
  | _ :: r => opens r
  end.

Fixpoint probes (tr : list event) : list string :=
  match tr with
  | [] => []
  | EvAccess path :: r => path :: probes r
  | _ :: r => probes r
  end.

Fixpoint lookups (tr : list event) : list string :=
  match tr with
  | [] => []
  | EvGethostbyname name :: r => name :: lookups r
  | _ :: r => lookups r
  end.

(** Every call of kind [A] is made before every call of kind [B]. *)
Definition happens_before (A B : event -> bool) (tr : list event) : Prop :=
  forall i j a b,
    nth_error tr i = Some a -> nth_error tr j = Some b ->
    A a = true -> B b = true -> (i < j)%nat.

Fixpoint ordered (A B : event -> bool) (tr : list event) : bool :=
  match tr with
  | [] => true
  | e :: r =>
      (negb (B e) || forallb (fun x => negb (A x)) (e :: r)) && ordered A B r
  end.

(* ================================================================== *)
(** ** The specification's vocabulary *)

(** The directive line: marker, address, newline. *)
Definition directive_line (mark address : string) : string :=
  mark ++ address ++ nl.

(** One or two arguments, the first being one of the two mode literals. *)
Definition valid_args (argv : list string) : bool :=
  match argv with
  | [m] | [m; _] => String.eqb m "+" || String.eqb m "-"
  | _ => false
  end.

Fixpoint contains (c : ascii) (s : string) : bool :=
  match s with
  | EmptyString => false
  | String a r => Ascii.eqb a c || contains c r
  end.

Definition lower_char (c : ascii) : ascii :=
  if (65 <=? code c) && (code c <=? 90)
  then ascii_of_N (N_of_ascii c + 32)
  else c.

Fixpoint lower (s : string) : string :=
  match s with
  | EmptyString => EmptyString
  | String c r => String (lower_char c) (lower r)
  end.

Definition starts_with (pre s : string) : bool := String.prefix pre s.

Definition starts_with_ci (pre s : string) : bool :=
  String.prefix (lower pre) (lower s).

(** [s] without its first [length pre] characters. *)
Definition strip (pre s : string) : string :=
  substring (String.length pre) (String.length s - String.length pre) s.

(** The extraction rules as the specification words them: the name to
    retry resolution on, or [None] when neither prefix pattern matches. *)
Definition extract_embedded_ipv4_spec (identifier : string) : option string :=
  if starts_with "::" identifier then
    let rest := strip "::" identifier in
    if starts_with_ci "ffff:" rest then Some (strip "ffff:" rest) else Some rest
  else if starts_with_ci "0:0:0:0:0:" identifier then
    let rest := strip "0:0:0:0:0:" identifier in
    if starts_with "0:" rest then Some (strip "0:" rest)
    else if starts_with_ci "ffff:" rest then Some (strip "ffff:" rest)
    else Some rest
  else None.

(** Dotted quad: four fields separated by dots, each one to three decimal
    digits with a value of at most 255. *)
Definition is_digit (c : ascii) : bool := (48 <=? code c) && (code c <=? 57).

Fixpoint all_digits (s : string) : bool :=
  match s with
  | EmptyString => true
  | String c r => is_digit c && all_digits r
  end.

Fixpoint decimal_value (acc : Z) (s : string) : Z :=
  match s with
  | EmptyString => acc
  | String c r => decimal_value (10 * acc + (code c - 48)) r
  end.

Fixpoint fields (sep : ascii) (s : string) : list string :=
  match s with
  | EmptyString => [EmptyString]
  | String c r =>
      if Ascii.eqb c sep then EmptyString :: fields sep r
      else match fields sep r with
           | f :: fs => String c f :: fs
           | [] => [String c EmptyString]
           end
  end.

Definition is_octet (s : string) : bool :=
  Nat.leb 1 (String.length s) && Nat.leb (String.length s) 3
  && all_digits s && (decimal_value 0 s <=? 255).

Definition is_dotted_quad (s : string) : bool :=
  match fields "." s with
  | [a; b; c; d] => is_octet a && is_octet b && is_octet c && is_octet d
  | _ => false
  end.

(* ================================================================== *)
(** ** Sample hosts *)

Definition HOST_NOT_FOUND : Z := 1.
Definition ENOENT : Z := 2.

Fixpoint member (x : string) (l : list string) : bool :=
  match l with
  | [] => false
  | y :: r => String.eqb x y || member x r
  end.

Fixpoint lookup_host (name : string) (hosts : list (string * hostent))
  : Z + hostent :=
  match hosts with
  | [] => inl HOST_NOT_FOUND
  | (n, e) :: r => if String.eqb name n then inr e else lookup_host name r
  end.

Fixpoint bytes_eqb (a b : list byte) : bool :=
  match a, b with
  | [], [] => true
  | x :: a', y :: b' => Byte.eqb x y && bytes_eqb a' b'
  | _, _ => false
  end.

Fixpoint lookup_text (src : list byte) (table : list (list byte * string))
  : string :=
  match table with
  | [] => EmptyString
  | (a, t) :: r => if bytes_eqb src a then t else lookup_text src r
  end.

(** A host given by the pseudo-files that exist (and open for writing),
    the PAM_RHOST item, the resolver's entries and libc's text for the
    IPv6 addresses in play. *)
Definition host (existing : list string) (rhost : option string)
    (hosts : list (string * hostent)) (texts6 : list (list byte * string)) : world :=
  mk_world
    (fun path => if member path existing then 0 else -1)
    (PAM_SUCCESS, rhost)
    (fun name => lookup_host name hosts)
    (fun src => lookup_text src texts6)
    (fun path => if member path existing then inr tt else inl ENOENT).

Definition addr_203_0_113_5 : list byte := ["203"; "000"; "113"; "005"]%byte.

Definition entry_203_0_113_5 : hostent := mk_hostent AF_INET [addr_203_0_113_5].

(** 2001:db8::1 *)
Definition addr_2001_db8_1 : list byte :=
  ["032"; "001"; "013"; "184"; "000"; "000"; "000"; "000";
   "000"; "000"; "000"; "000"; "000"; "000"; "000"; "001"]%byte.

Definition entry_2001_db8_1 : hostent := mk_hostent AF_INET6 [addr_2001_db8_1].

Definition legacy_files : list string :=
  ["/proc/net/ipt_recent/DEFAULT"; "/proc/net/ipt_recent/MYLIMIT"].

Definition modern_files : list string :=
  ["/proc/net/xt_recent/DEFAULT"; "/proc/net/xt_recent/MYLIMIT"].

(** A kernel before 2.6.28, a login from 203.0.113.5. *)
Definition legacy_host : world :=
  host legacy_files (Some "203.0.113.5")
       [("203.0.113.5", entry_203_0_113_5)] [].

(** A kernel from 2.6.28 on, same login. *)
Definition modern_host : world :=
  host modern_files (Some "203.0.113.5")
       [("203.0.113.5", entry_203_0_113_5)] [].

(** The login reported in mixed notation, which the resolver rejects. *)
Definition mapped_host : world :=
  host modern_files (Some "::ffff:203.0.113.5")
       [("203.0.113.5", entry_203_0_113_5)] [].

(** A resolver with the inet6 option: it answers with an AF_INET6 entry. *)
Definition inet6_host : world :=
  host modern_files (Some "2001:db8::1")
       [("2001:db8::1", entry_2001_db8_1)]
       [(addr_2001_db8_1, "2001:db8::1")].

(** PAM_RHOST set to the empty string, and not set at all. *)
Definition empty_rhost_host : world :=
  host modern_files (Some "") [("203.0.113.5", entry_203_0_113_5)] [].

Definition local_login_host : world :=
  host modern_files None [("203.0.113.5", entry_203_0_113_5)] [].

Fixpoint replicate (n : nat) (c : ascii) : string :=
  match n with
  | O => EmptyString
  | S n' => String c (replicate n' c)
  end.

(** A list name of 4090 characters. *)
Definition long_name : string := replicate 4090 "A".

(* ================================================================== *)
(** ** More vocabulary and hosts *)

Definition is_open (e : event) : bool :=
  match e with EvFopen _ _ => true | _ => false end.

(** The streams handed to [fclose], in order. *)
Fixpoint closes (tr : list event) : list string :=
  match tr with
  | [] => []
  | EvFclose f :: r => f :: closes r
  | _ :: r => closes r
  end.

(** The modes handed to [fopen], in order. *)
Fixpoint open_modes (tr : list event) : list string :=
  match tr with
  | [] => []
  | EvFopen _ mode :: r => mode :: open_modes r
  | _ :: r => open_modes r
  end.

(** The same host with another value stored under PAM_RHOST. *)
Definition with_rhost (w : world) (identifier : string) : world :=
  mk_world (w_access w) (PAM_SUCCESS, Some identifier) (w_gethostbyname w)
           (w_inet_ntop6 w) (w_fopen w).

(** The prefixes of the mixed notation that leave a bare IPv4 address
    behind them, up to the case of the letters. *)
Definition full_mixed_prefix (pre : string) : bool :=
  member (lower pre) ["::ffff:"; "0:0:0:0:0:0:"; "0:0:0:0:0:ffff:"].

(** Every prefix the extraction can remove, up to case. *)
Definition mixed_prefix (pre : string) : bool :=
  member (lower pre)
         ["::"; "::ffff:"; "0:0:0:0:0:"; "0:0:0:0:0:0:"; "0:0:0:0:0:ffff:"].

Definition PAM_SYSTEM_ERR : Z := 4.
Definition EACCES : Z := 13.

(** A host on which libpam cannot hand out the item. *)
Definition broken_item_host : world :=
  mk_world (w_access modern_host) (PAM_SYSTEM_ERR, Some "203.0.113.5")
           (w_gethostbyname modern_host) (w_inet_ntop6 modern_host)
           (w_fopen modern_host).

(** A host whose resolver knows nothing of the login's address. *)
Definition unknown_mapped_host : world :=
  host modern_files (Some "::ffff:198.51.100.7")
       [("203.0.113.5", entry_203_0_113_5)] [].

(** A resolver answering with an entry of a family libc cannot print. *)
Definition odd_family_host : world :=
  host modern_files (Some "gateway")
       [("gateway", mk_hostent 0 [addr_203_0_113_5])] [].

(** A resolver that accepts the mixed notation itself. *)
Definition lenient_host : world :=
  host modern_files (Some "::ffff:203.0.113.5")
       [("::ffff:203.0.113.5", entry_203_0_113_5);
        ("203.0.113.5", entry_203_0_113_5)] [].

(* ================================================================== *)
(** ** Facts about C strings *)

Section CStrings.

Lemma code_range (c : ascii) : 0 <= code c < 256.
Proof.
  unfold code. pose proof (N_ascii_bounded c). lia.
Qed.

Lemma code_inj (a b : ascii) : code a = code b -> a = b.
Proof.
  unfold code. intros H. apply N2Z.inj in H.
  rewrite <- (ascii_N_embedding a), <- (ascii_N_embedding b). now rewrite H.
Qed.

Lemma code_eqb (a b : ascii) : (code a =? code b) = Ascii.eqb a b.
Proof.
  destruct (Ascii.eqb_spec a b) as [->|N].
  - apply Z.eqb_refl.
  - apply Z.eqb_neq. intros H. now apply N, code_inj.
Qed.

Lemma code_lower_char (c : ascii) : code (lower_char c) = tolower (code c).
Proof.
  unfold lower_char, tolower.
  destruct ((65 <=? code c) && (code c <=? 90)) eqn:E; [|reflexivity].
  apply andb_true_iff in E. destruct E as [E1 E2].
  apply Z.leb_le in E1, E2. unfold code in *.
  rewrite N_ascii_embedding by lia. lia.
Qed.

Lemma tolower_nonzero (c : Z) : 0 <= c -> (tolower c =? 0) = (c =? 0).
Proof.
  intros H. unfold tolower.
  destruct ((65 <=? c) && (c <=? 90)) eqn:E; [|reflexivity].
  apply andb_true_iff in E. destruct E as [E1 E2].
  apply Z.leb_le in E1, E2.
  destruct (Z.eqb_spec (c + 32) 0), (Z.eqb_spec c 0); lia || reflexivity.
Qed.

Lemma c_str_nul_free (s : string) : nul_free s = true -> c_str s = s.
Proof.
  induction s as [|c r IH]; cbn; [reflexivity|].
  intros H. apply andb_true_iff in H. destruct H as [Hc Hr].
  apply negb_true_iff in Hc. rewrite Hc. now rewrite IH.
Qed.

Lemma strcmp_same (s : string) : strcmp s s = 0.
Proof.
  induction s as [|c r IH]; cbn; [reflexivity|].
  rewrite Z.eqb_refl. now destruct (code c =? 0).
Qed.

Lemma strcmp_zero (s t : string) :
  nul_free s = true -> nul_free t = true -> strcmp s t = 0 -> s = t.
Proof.
  revert t. induction s as [|a r IH]; intros t Hs Ht.
  - destruct t as [|b t']; cbn; [reflexivity|].
    cbn in Ht. apply andb_true_iff in Ht. destruct Ht as [Hb _].
    apply negb_true_iff, Z.eqb_neq in Hb. lia.
  - cbn in Hs. apply andb_true_iff in Hs. destruct Hs as [Ha Hr].
    apply negb_true_iff in Ha.
    destruct t as [|b t']; cbn [strcmp peek skip].
    + rewrite Ha. apply Z.eqb_neq in Ha. lia.
    + cbn in Ht. apply andb_true_iff in Ht. destruct Ht as [_ Ht'].
      destruct (Z.eqb_spec (code a) (code b)) as [E|N].
      * rewrite Ha. intros H. apply code_inj in E. subst b.
        f_equal. now apply IH.
      * lia.
Qed.

Lemma strncmp_prefix (lit s : string) :
  nul_free lit = true ->
  (strncmp s lit (String.length lit) =? 0) = starts_with lit s.
Proof.
  unfold starts_with. revert s.
  induction lit as [|a l IH]; intros s Hl; [now destruct s|].
  cbn in Hl. apply andb_true_iff in Hl. destruct Hl as [Ha Hl].
  apply negb_true_iff in Ha. pose proof Ha as Ha'. apply Z.eqb_neq in Ha'.
  destruct s as [|b r]; cbn [String.length strncmp peek skip prefix].
  - rewrite (Z.eqb_sym 0 (code a)), Ha. apply Z.eqb_neq. lia.
  - destruct (ascii_dec a b) as [<-|N].
    + rewrite Z.eqb_refl, Ha. now apply IH.
    + destruct (Z.eqb_spec (code b) (code a)) as [E|E].
      * apply code_inj in E. congruence.
      * apply Z.eqb_neq. lia.
Qed.

Lemma strncasecmp_prefix (lit s : string) :
  nul_free lit = true ->
  (strncasecmp s lit (String.length lit) =? 0) = starts_with_ci lit s.
Proof.
  unfold starts_with_ci. revert s.
  induction lit as [|a l IH]; intros s Hl; [now destruct s|].
  cbn in Hl. apply andb_true_iff in Hl. destruct Hl as [Ha Hl].
  apply negb_true_iff in Ha.
  assert (Hta : (tolower (code a) =? 0) = false).
  { rewrite tolower_nonzero; [assumption | apply code_range]. }
  pose proof Hta as Hta'. apply Z.eqb_neq in Hta'.
  destruct s as [|b r]; cbn [String.length strncasecmp peek skip lower prefix].
  - change (tolower 0) with 0.
    rewrite (Z.eqb_sym 0 (tolower (code a))), Hta. apply Z.eqb_neq. lia.
  - rewrite <- !code_lower_char in *.
    destruct (ascii_dec (lower_char a) (lower_char b)) as [E|N].
    + rewrite E, Z.eqb_refl. rewrite E in Hta. rewrite Hta. now apply IH.
    + destruct (Z.eqb_spec (code (lower_char b)) (code (lower_char a))) as [E|E].
      * apply code_inj in E. congruence.
      * apply Z.eqb_neq. lia.
Qed.

Lemma substring_all (s : string) : substring 0 (String.length s) s = s.
Proof. induction s as [|c r IH]; cbn; [reflexivity | now rewrite IH]. Qed.

Lemma skip_strip (pre s : string) : skip (String.length pre) s = strip pre s.
Proof.
  unfold strip. generalize (String.length pre) as n. intros n. revert s.
  induction n as [|n IH]; intros s.
  - cbn [skip]. rewrite Nat.sub_0_r. symmetry. apply substring_all.
  - destruct s as [|c r]; cbn; [reflexivity | apply IH].
Qed.

Lemma substring_length (n : nat) (s : string) :
  String.length (substring 0 n s) = Nat.min n (String.length s).
Proof.
  revert s. induction n as [|n IH]; intros s; destruct s as [|c r]; cbn;
    try reflexivity.
  now rewrite IH.
Qed.

Lemma substring_fits (n : nat) (s : string) :
  (String.length s <= n)%nat -> substring 0 n s = s.
Proof.
  revert s. induction n as [|n IH]; intros s; destruct s as [|c r]; cbn;
    try reflexivity; intros H; [lia|].
  rewrite IH; [reflexivity | lia].
Qed.

Lemma strchr_contains (s : string) (c : ascii) :
  nul_free s = true -> code c <> 0 ->
  strchr s c = None <-> contains c s = false.
Proof.
  intros Hs Hc. induction s as [|a r IH]; cbn.
  - apply Z.eqb_neq in Hc. rewrite Hc. tauto.
  - cbn in Hs. apply andb_true_iff in Hs. destruct Hs as [Ha Hr].
    apply negb_true_iff in Ha. rewrite code_eqb, Ha.
    destruct (Ascii.eqb a c); cbn; [split; discriminate | now apply IH].
Qed.

End CStrings.

(** *** The source's prefix tests against the specification's *)

Lemma lower_char_nonletter (a b : ascii) :
  code a < 65 \/ 122 < code a \/ 90 < code a < 97 ->
  lower_char b = a <-> b = a.
Proof.
  intros Ha. split.
  - intros H. apply (f_equal code) in H. rewrite code_lower_char in H.
    apply code_inj. unfold tolower in H.
    destruct ((65 <=? code b) && (code b <=? 90)) eqn:E; [|assumption].
    apply andb_true_iff in E. destruct E as [E1 E2].
    apply Z.leb_le in E1, E2. lia.
  - intros ->. unfold lower_char.
    destruct ((65 <=? code a) && (code a <=? 90)) eqn:E; [|reflexivity].
    apply andb_true_iff in E. destruct E as [E1 E2].
    apply Z.leb_le in E1, E2. lia.
Qed.

Lemma starts_with_ci_zero_colon (s : string) :
  starts_with_ci "0:" s = starts_with "0:" s.
Proof.
  unfold starts_with_ci, starts_with.
  change (lower "0:") with "0:".
  assert (H0 : forall b, lower_char b = "0"%char <-> b = "0"%char)
    by (intros b; apply lower_char_nonletter; vm_compute; left; reflexivity).
  assert (H1 : forall b, lower_char b = ":"%char <-> b = ":"%char)
    by (intros b; apply lower_char_nonletter; vm_compute; left; reflexivity).
  destruct s as [|b [|c r]]; cbn [lower prefix]; try reflexivity.
  - destruct (ascii_dec "0" (lower_char b)), (ascii_dec "0" b); reflexivity.
  - destruct (ascii_dec "0" (lower_char b)) as [E|N], (ascii_dec "0" b) as [E'|N'].
    + destruct (ascii_dec ":" (lower_char c)) as [F|M], (ascii_dec ":" c) as [F'|M'].
      * now destruct r.
      * symmetry in F. apply (proj1 (H1 _)) in F. congruence.
      * symmetry in F'. apply (proj2 (H1 _)) in F'. congruence.
      * reflexivity.
    + symmetry in E. apply (proj1 (H0 _)) in E. congruence.
    + symmetry in E'. apply (proj2 (H0 _)) in E'. congruence.
    + reflexivity.
Qed.

Lemma embedded_ipv4_spec (s : string) :
  embedded_ipv4 s = extract_embedded_ipv4_spec s.
Proof.
  unfold embedded_ipv4, extract_embedded_ipv4_spec.
  pose proof (strncmp_prefix "::" s eq_refl) as H1.
  pose proof (strncasecmp_prefix "0:0:0:0:0:" s eq_refl) as H2.
  pose proof (strncasecmp_prefix "ffff:" (skip 2 s) eq_refl) as H3.
  pose proof (strncasecmp_prefix "ffff:" (skip 10 s) eq_refl) as H4.
  pose proof (strncasecmp_prefix "0:" (skip 10 s) eq_refl) as H5.
  cbn [String.length] in H1, H2, H3, H4, H5.
  rewrite H1, H2, H3, H4, H5.
  rewrite starts_with_ci_zero_colon.
  pose proof (skip_strip "ffff:" (skip 2 s)) as S1.
  pose proof (skip_strip "ffff:" (skip 10 s)) as S2.
  pose proof (skip_strip "0:" (skip 10 s)) as S3.
  pose proof (skip_strip "::" s) as S4.
  pose proof (skip_strip "0:0:0:0:0:" s) as S5.
  cbn [String.length] in S1, S2, S3, S4, S5.
  rewrite S1, S2, S3, S4, S5.
  reflexivity.
Qed.

(* ================================================================== *)
(** ** Dotted quads *)

Lemma fields_cons (a rest : string) :
  contains "." a = false ->
  fields "." (a ++ String "." rest) = a :: fields "." rest.
Proof.
  induction a as [|c r IH]; cbn; [reflexivity|].
  intros H. apply orb_false_iff in H. destruct H as [Hc Hr].
  rewrite Hc, (IH Hr). reflexivity.
Qed.

Lemma fields_last (a : string) :
  contains "." a = false -> fields "." a = [a].
Proof.
  induction a as [|c r IH]; cbn; [reflexivity|].
  intros H. apply orb_false_iff in H. destruct H as [Hc Hr].
  rewrite Hc, (IH Hr). reflexivity.
Qed.

Lemma octet_ok (src : list byte) (i : nat) :
  is_octet (octet src i) = true /\ contains "." (octet src i) = false.
Proof.
  unfold octet. destruct (nth i src x00); vm_compute; split; reflexivity.
Qed.

Lemma inet_ntop4_dotted_quad (src : list byte) :
  is_dotted_quad (inet_ntop4 src) = true.
Proof.
  unfold is_dotted_quad, inet_ntop4.
  destruct (octet_ok src 0) as [A0 B0], (octet_ok src 1) as [A1 B1].
  destruct (octet_ok src 2) as [A2 B2], (octet_ok src 3) as [A3 B3].
  cbn [append].
  rewrite (fields_cons _ _ B0), (fields_cons _ _ B1), (fields_cons _ _ B2).
  rewrite (fields_last _ B3), A0, A1, A2, A3. reflexivity.
Qed.

(* ================================================================== *)
(** ** Order in a trace *)

Lemma ordered_happens_before (A B : event -> bool) (tr : list event) :
  ordered A B tr = true -> happens_before A B tr.
Proof.
  unfold happens_before. induction tr as [|e r IH]; intros H i j a b Hi Hj Ha Hb.
  - destruct i; discriminate.
  - cbn [ordered] in H. apply andb_true_iff in H. destruct H as [He Hr].
    destruct j as [|j].
    + cbn in Hj. injection Hj as ->. rewrite Hb in He. cbn [negb orb] in He.
      apply nth_error_In in Hi.
      rewrite forallb_forall in He. specialize (He a Hi).
      rewrite Ha in He. discriminate.
    + destruct i as [|i]; [lia|].
      cbn in Hi, Hj. specialize (IH Hr i j a b Hi Hj Ha Hb). lia.
Qed.

Lemma names_looked_up_cases (w : world) (rhostname : string) :
  names_looked_up w rhostname = [rhostname]
  \/ exists p, embedded_ipv4 rhostname = Some p
               /\ names_looked_up w rhostname = [rhostname; p].
Proof.
  unfold names_looked_up.
  destruct (w_gethostbyname w rhostname); [|now left].
  destruct (strchr rhostname ":"); [|now left].
  destruct (embedded_ipv4 rhostname) as [p|]; [right; eauto | now left].
Qed.

(* ================================================================== *)
(** ** The function follows one of its paths *)

Lemma app_one {A : Type} (l : list A) (x : A) (y : list A) :
  ((l ++ [x]) ++ y = l ++ x :: y)%list.
Proof. now rewrite <- app_assoc. Qed.

Lemma lookup_step {A : Type} (k : option hostent -> M A) (w : world)
    (rhostname : string) (s : state) :
  exists h',
    (forall h, resolve w rhostname = inl h -> h' = h) /\
    (rhost <- gethostbyname rhostname ;;
     rhost <- (match rhost, strchr rhostname ":" with
               | None, Some _ =>
                   match embedded_ipv4 rhostname with
                   | Some p => gethostbyname p
                   | None => ret rhost
                   end
               | _, _ => ret rhost
               end) ;;
     k rhost) w s
    = k (match resolve w rhostname with inl _ => None | inr e => Some e end) w
        (mk_state (trace s ++ map EvGethostbyname (names_looked_up w rhostname))
                  (errno s) h').
Proof.
  unfold bind, gethostbyname, resolve, names_looked_up, ret, emit.
  destruct (w_gethostbyname w rhostname) as [h|e] eqn:E1; cbn.
  - destruct (strchr rhostname ":") as [q|]; cbn.
    + destruct (embedded_ipv4 rhostname) as [p|]; cbn.
      * destruct (w_gethostbyname w p) as [h2|e2]; cbn; rewrite app_one;
          eexists; (split; [|reflexivity]); congruence.
      * eexists; (split; [|reflexivity]); congruence.
    + eexists; (split; [|reflexivity]); congruence.
  - destruct (strchr rhostname ":"); eexists; (split; [|reflexivity]); congruence.
Qed.

Ltac run_body :=
  unfold bind, pam_syslog, return_, ret, get_errno, get_h_errno, fprintf, fclose,
    emit;
  cbn [trace errno h_errno fst snd].

Ltac finish_trace :=
  do 4 eexists; split;
  [ rewrite <- ?app_assoc; cbn [app]; reflexivity | ].

Lemma onSessionOpen_run (PM : nat) (w : world) (argv : list string) (s : state) :
  exists r evs e h,
    onSessionOpen PM w argv s = (r, mk_state (trace s ++ evs) e h)
    /\ run PM w argv r evs.
Proof.
  unfold onSessionOpen, call, pam_sm_open_session.
  fold (argc_of argv).
  destruct (argc_ok argv) eqn:Hargc.
  2:{ pose proof Hargc as Hargc'.
      unfold argc_ok in Hargc. apply negb_false_iff in Hargc.
      unfold bind at 1. rewrite Hargc. run_body.
      finish_trace. apply run_argc; assumption. }
  pose proof Hargc as Hargc'.
  unfold argc_ok in Hargc. apply negb_true_iff in Hargc.
  unfold bind at 1. rewrite Hargc. cbn [ret].
  destruct (mode_of (nth 0 argv "")) as [remove|] eqn:Hmode.
  2:{ pose proof Hmode as Hmode'. unfold mode_of in Hmode. unfold bind at 1.
      destruct (strcmp (nth 0 argv "") ACTION_ADD =? 0); [discriminate|].
      destruct (strcmp (nth 0 argv "") ACTION_REMOVE =? 0); [discriminate|].
      run_body. finish_trace. apply run_mode; assumption. }
  fold (dbname_of argv).
  set (rem := if strcmp (nth 0 argv "") ACTION_ADD =? 0 then ret 0
              else if strcmp (nth 0 argv "") ACTION_REMOVE =? 0 then ret 1 else _).
  assert (Hrem : rem = ret (if remove then 1 else 0)).
  { subst rem. unfold mode_of in Hmode.
    destruct (strcmp (nth 0 argv "") ACTION_ADD =? 0); [now inversion Hmode|].
    destruct (strcmp (nth 0 argv "") ACTION_REMOVE =? 0); [now inversion Hmode|].
    discriminate. }
  rewrite Hrem. clear rem Hrem.
  unfold bind at 1. cbn [ret].
  unfold bind at 1. unfold access at 1.
  fold (target_path PM w (dbname_of argv)).
  unfold bind at 1. unfold pam_get_item_RHOST at 1.
  destruct (w_pam_rhost w) as [r p] eqn:Hitem. cbn [fst snd].
  destruct (r =? PAM_SUCCESS) eqn:Hr; cbn [negb].
  2:{ apply Z.eqb_neq in Hr. run_body.
      finish_trace. eapply run_item; eassumption. }
  apply Z.eqb_eq in Hr. subst r.
  unfold bind at 1. cbn [ret].
  destruct p as [rhostname|].
  2:{ run_body. finish_trace. eapply run_no_rhost; eassumption. }
  match goal with
  | |- context [bind (gethostbyname rhostname) (fun rhost => bind (@?m rhost) ?k) w ?s0] =>
      destruct (lookup_step k w rhostname s0) as (h' & Hh & ->)
  end.
  destruct (resolve w rhostname) as [h|rhost] eqn:Hres.
  { rewrite (Hh h eq_refl). run_body. finish_trace.
    eapply run_lookup; eassumption. }
  unfold bind at 1, inet_ntop at 1. fold (presentation w rhost).
  destruct (presentation w rhost) as [e|address] eqn:Hpres.
  { run_body. finish_trace. eapply run_conversion; eassumption. }
  unfold bind at 1, fopen at 1.
  destruct (w_fopen w (target_path PM w (dbname_of argv))) as [e|u] eqn:Hopen.
  { run_body. finish_trace. eapply run_open; eassumption. }
  run_body. finish_trace.
  destruct remove; cbn [negb Z.eqb];
    [ eapply (run_written _ _ _ true rhostname)
    | eapply (run_written _ _ _ false rhostname) ]; eassumption.
Qed.

Lemma run_deterministic (PATH_MAX : nat) (w : world) (argv : list string)
    (r1 r2 : Z) (e1 e2 : list event) :
  run PATH_MAX w argv r1 e1 -> run PATH_MAX w argv r2 e2 -> r1 = r2 /\ e1 = e2.
Proof.
  intros H1 H2.
  inversion H1; subst; inversion H2; subst;
    repeat match goal with
           | Ha : ?x = _, Hb : ?x = _ |- _ =>
               rewrite Ha in Hb; inversion Hb; subst; clear Hb
           end;
    try congruence; split; reflexivity.
Qed.

Lemma hook_run (PATH_MAX : nat) (w : world) (argv : list string) :
  run PATH_MAX w argv (fst (hook PATH_MAX w argv)) (snd (hook PATH_MAX w argv)).
Proof.
  destruct (onSessionOpen_run PATH_MAX w argv init_state) as (r & evs & e & h & E & R).
  unfold hook. rewrite E. exact R.
Qed.

(** The process state an invocation starts from changes neither its result
    nor the calls it makes. *)
Lemma onSessionOpen_hook (PATH_MAX : nat) (w : world) (argv : list string) (s : state) :
  fst (onSessionOpen PATH_MAX w argv s) = fst (hook PATH_MAX w argv)
  /\ trace (snd (onSessionOpen PATH_MAX w argv s))
     = (trace s ++ snd (hook PATH_MAX w argv))%list.
Proof.
  destruct (onSessionOpen_run PATH_MAX w argv s) as (r & evs & e & h & E & R).
  destruct (run_deterministic _ _ _ _ _ _ _ R (hook_run PATH_MAX w argv)) as [<- <-].
  rewrite E. split; reflexivity.
Qed.

(* ================================================================== *)
(** ** Reading the paths *)

Lemma writes_app (a b : list event) : writes (a ++ b) = (writes a ++ writes b)%list.
Proof.
  induction a as [|e r IH]; [reflexivity|].
  destruct e; cbn; rewrite IH; reflexivity.
Qed.

Lemma opens_app (a b : list event) : opens (a ++ b) = (opens a ++ opens b)%list.
Proof.
  induction a as [|e r IH]; [reflexivity|].
  destruct e; cbn; rewrite IH; reflexivity.
Qed.

Lemma lookups_app (a b : list event) : lookups (a ++ b) = (lookups a ++ lookups b)%list.
Proof.
  induction a as [|e r IH]; [reflexivity|].
  destruct e; cbn; rewrite IH; reflexivity.
Qed.

Lemma lookups_names (l : list string) : lookups (map EvGethostbyname l) = l.
Proof. induction l as [|n r IH]; cbn; [reflexivity | now rewrite IH]. Qed.

Lemma writes_names (l : list string) : writes (map EvGethostbyname l) = [].
Proof. induction l as [|n r IH]; cbn; [reflexivity | exact IH]. Qed.

Lemma opens_names (l : list string) : opens (map EvGethostbyname l) = [].
Proof. induction l as [|n r IH]; cbn; [reflexivity | exact IH]. Qed.

Lemma valid_args_mode (argv : list string) :
  valid_args argv = true ->
  argc_ok argv = true
  /\ exists remove, mode_of (nth 0 argv "") = Some remove
                    /\ nth 0 argv "" = marker remove.
Proof.
  destruct argv as [|m [|d [|x r]]]; cbn [valid_args]; try discriminate;
    intros H; apply orb_true_iff in H; (split; [reflexivity|]);
    destruct H as [H|H]; apply String.eqb_eq in H; subst m;
    [exists false | exists true | exists false | exists true]; split; reflexivity.
Qed.

Lemma mode_of_marker (arg0 : string) (remove : bool) :
  nul_free arg0 = true -> mode_of arg0 = Some remove -> arg0 = marker remove.
Proof.
  unfold mode_of. intros Hn.
  destruct (Z.eqb_spec (strcmp arg0 ACTION_ADD) 0) as [E|_].
  - intros [= <-]. now apply strcmp_zero.
  - destruct (Z.eqb_spec (strcmp arg0 ACTION_REMOVE) 0) as [E|_]; [|discriminate].
    intros [= <-]. now apply strcmp_zero.
Qed.

Lemma nul_free_nth (argv : list string) (i : nat) :
  forallb nul_free argv = true -> nul_free (nth i argv "") = true.
Proof.
  revert i. induction argv as [|a r IH]; intros i H.
  - now destruct i.
  - cbn in H. apply andb_true_iff in H. destruct H as [Ha Hr].
    destruct i; [exact Ha | now apply IH].
Qed.

Lemma nul_free_dbname (argv : list string) :
  forallb nul_free argv = true -> nul_free (dbname_of argv) = true.
Proof.
  intros H. unfold dbname_of.
  destruct (argc_of argv =? 2); [now apply nul_free_nth | reflexivity].
Qed.

Lemma snprintf_path_fits (PATH_MAX : nat) (dir name : string) :
  nul_free dir = true -> nul_free name = true ->
  (String.length (dir ++ "/" ++ name) < PATH_MAX)%nat ->
  snprintf_path PATH_MAX dir name = dir ++ "/" ++ name.
Proof.
  intros Hd Hn Hl. unfold snprintf_path.
  rewrite (c_str_nul_free _ Hd), (c_str_nul_free _ Hn).
  apply substring_fits. lia.
Qed.

Lemma snprintf_path_cut (PATH_MAX : nat) (dir name : string) :
  nul_free dir = true -> nul_free name = true ->
  (1 <= PATH_MAX <= String.length (dir ++ "/" ++ name))%nat ->
  snprintf_path PATH_MAX dir name = substring 0 (PATH_MAX - 1) (dir ++ "/" ++ name)
  /\ String.length (snprintf_path PATH_MAX dir name) = (PATH_MAX - 1)%nat
  /\ snprintf_path PATH_MAX dir name <> dir ++ "/" ++ name.
Proof.
  intros Hd Hn Hl. unfold snprintf_path.
  rewrite (c_str_nul_free _ Hd), (c_str_nul_free _ Hn).
  assert (L : String.length (substring 0 (PATH_MAX - 1) (dir ++ "/" ++ name))
              = (PATH_MAX - 1)%nat) by (rewrite substring_length; lia).
  repeat split; [exact L|].
  intros E. rewrite E in L. lia.
Qed.

Ltac paths PM w argv :=
  let R := fresh "R" in
  pose proof (hook_run PM w argv) as R;
  destruct (hook PM w argv) as [?r ?tr]; cbn [fst snd] in *;
  destruct R
    as [ Hc
       | Hc Hm
       | remove r0 p0 Hc Hm Hi Hr
       | remove Hc Hm Hi
       | remove rhostname h Hc Hm Hi Hres
       | remove rhostname rhost e Hc Hm Hi Hres Hpres
       | remove rhostname rhost address e Hc Hm Hi Hres Hpres Hopen
       | remove rhostname rhost address u Hc Hm Hi Hres Hpres Hopen ].

Ltac concrete_names w rhostname :=
  let p := fresh "p" in
  let Hp := fresh "Hp" in
  let Hn := fresh "Hn" in
  destruct (names_looked_up_cases w rhostname) as [Hn | (p & Hp & Hn)];
  rewrite Hn in *; cbn [map app] in *.

Lemma success_path (PATH_MAX : nat) (w : world) (argv : list string) :
  fst (hook PATH_MAX w argv) = PAM_SUCCESS ->
  exists remove rhostname rhost address,
    argc_ok argv = true
    /\ mode_of (nth 0 argv "") = Some remove
    /\ w_pam_rhost w = (PAM_SUCCESS, Some rhostname)
    /\ resolve w rhostname = inr rhost
    /\ presentation w rhost = inr address
    /\ resolved_address w = Some address
    /\ snd (hook PATH_MAX w argv)
       = ([EvAccess (snprintf_path PATH_MAX LOCNEW (dbname_of argv)); EvGetItem]
          ++ map EvGethostbyname (names_looked_up w rhostname)
          ++ [EvInetNtop (h_addrtype rhost) (nth 0 (h_addr_list rhost) []);
              EvFopen (target_path PATH_MAX w (dbname_of argv)) "w";
              EvFprintf (target_path PATH_MAX w (dbname_of argv))
                (marker remove ++ address ++ nl);
              EvFclose (target_path PATH_MAX w (dbname_of argv));
              log_done remove rhostname address (dbname_of argv)])%list.
Proof.
  intros Hs. paths PATH_MAX w argv; try discriminate Hs.
  exists remove, rhostname, rhost, address.
  repeat (split; [assumption|]). split; [|reflexivity].
  unfold resolved_address. rewrite Hi. cbn [Z.eqb PAM_SUCCESS].
  rewrite Hres, Hpres. reflexivity.
Qed.

Lemma success_writes (PATH_MAX : nat) (w : world) (argv : list string) :
  fst (hook PATH_MAX w argv) = PAM_SUCCESS ->
  exists remove address,
    mode_of (nth 0 argv "") = Some remove
    /\ resolved_address w = Some address
    /\ writes (snd (hook PATH_MAX w argv))
       = [(target_path PATH_MAX w (dbname_of argv), marker remove ++ address ++ nl)].
Proof.
  intros Hs.
  destruct (success_path _ _ _ Hs)
    as (remove & rhostname & rhost & address & _ & Hm & _ & _ & _ & Ha & ->).
  exists remove, address. repeat (split; [assumption|]).
  rewrite !writes_app, writes_names. reflexivity.
Qed.

(** What happens once the resolver has produced an entry. *)
Lemma after_resolution (PATH_MAX : nat) (w : world) (argv : list string)
    (identifier : string) (entry : hostent) :
  valid_args argv = true ->
  w_pam_rhost w = (PAM_SUCCESS, Some identifier) ->
  resolve w identifier = inr entry ->
  let target := target_path PATH_MAX w (dbname_of argv) in
  fst (hook PATH_MAX w argv)
  = match presentation w entry, w_fopen w target with
    | inr _, inr _ => PAM_SUCCESS
    | _, _ => PAM_SESSION_ERR
    end
  /\ writes (snd (hook PATH_MAX w argv))
     = match presentation w entry, w_fopen w target with
       | inr address, inr _ => [(target, nth 0 argv "" ++ address ++ nl)]
       | _, _ => []
       end
  /\ opens (snd (hook PATH_MAX w argv))
     = match presentation w entry with
       | inr _ => [target]
       | inl _ => []
       end.
Proof.
  intros Hv Hi' Hres'. cbv zeta.
  destruct (valid_args_mode _ Hv) as (Hc' & rem & Hm' & Hmark).
  paths PATH_MAX w argv; try congruence;
    rewrite Hi' in Hi; injection Hi as <-;
    rewrite Hres' in Hres; injection Hres as <-;
    rewrite Hpres, ?Hopen, ?writes_app, ?writes_names, ?opens_app, ?opens_names;
    repeat split.
  assert (remove = rem) by congruence. subst remove.
  cbn [writes app]. now rewrite Hmark.
Qed.

(* ================================================================== *)
(** ** The claims *)

(** C1 (directive line).  A successful invocation whose arguments are C
    strings writes exactly one line, to the selected pseudo-file: the mode
    argument (which is "+" or "-"), immediately followed by the resolved
    address in presentation form and a newline.  With one argument the list
    name is "DEFAULT"; and with argv = ["+"], PAM_RHOST "203.0.113.5"
    resolving to that address, and a path buffer that holds the two
    candidate paths, the one line written is "+203.0.113.5\n", to
    /proc/net/xt_recent/DEFAULT when that entry exists and to
    /proc/net/ipt_recent/DEFAULT otherwise. *)
Theorem directive_line_written (PATH_MAX : nat) (w : world) (argv : list string) :
  forallb nul_free argv = true ->
  fst (hook PATH_MAX w argv) = PAM_SUCCESS ->
  (exists address,
      resolved_address w = Some address
      /\ (nth 0 argv "" = "+" \/ nth 0 argv "" = "-")
      /\ writes (snd (hook PATH_MAX w argv))
         = [(target_path PATH_MAX w (dbname_of argv),
             nth 0 argv "" ++ address ++ nl)])
  /\ (List.length argv = 1%nat -> dbname_of argv = "DEFAULT")
  /\ (argv = ["+"] ->
      (29 <= PATH_MAX)%nat ->
      w_pam_rhost w = (PAM_SUCCESS, Some "203.0.113.5") ->
      w_gethostbyname w "203.0.113.5" = inr entry_203_0_113_5 ->
      writes (snd (hook PATH_MAX w argv))
      = [(if w_access w "/proc/net/xt_recent/DEFAULT" =? 0
          then "/proc/net/xt_recent/DEFAULT"
          else "/proc/net/ipt_recent/DEFAULT",
          "+203.0.113.5" ++ nl)]).
Proof.
  intros Hn Hs.
  destruct (success_writes _ _ _ Hs) as (remove & address & Hm & Ha & Hw).
  pose proof (mode_of_marker _ _ (nul_free_nth argv 0 Hn) Hm) as H0.
  split; [|split].
  - exists address. split; [assumption|]. split.
    + rewrite H0. destruct remove; [right | left]; reflexivity.
    + rewrite Hw, H0. reflexivity.
  - intros Hl. unfold dbname_of, argc_of. rewrite Hl. reflexivity.
  - intros -> Hpm Hr Hg. rewrite Hw.
    cbn in Hm. injection Hm as <-.
    unfold resolved_address in Ha. rewrite Hr in Ha. cbn [Z.eqb PAM_SUCCESS] in Ha.
    unfold resolve in Ha. rewrite Hg in Ha.
    change (strchr "203.0.113.5" ":") with (@None string) in Ha.
    cbn in Ha. injection Ha as <-.
    change (dbname_of ["+"]) with "DEFAULT".
    unfold target_path.
    rewrite !snprintf_path_fits by (reflexivity || (cbn; lia)).
    cbn [LOCNEW LOCOLD append].
    destruct (w_access w "/proc/net/xt_recent/DEFAULT" =? 0); reflexivity.
Qed.

Lemma directive_line_written_witness :
  forallb nul_free ["+"] = true
  /\ fst (hook 4096 legacy_host ["+"]) = PAM_SUCCESS
  /\ writes (snd (hook 4096 legacy_host ["+"]))
     = [("/proc/net/ipt_recent/DEFAULT", "+203.0.113.5" ++ nl)].
Proof.
  split; [reflexivity|]. split; [reflexivity|].
  apply (directive_line_written 4096 legacy_host ["+"]);
    solve [reflexivity | cbn; lia].
Defined.

(** C3 (all or nothing).  Every invocation returns, in one of two ways.
    Either it returns PAM_SUCCESS, having opened one stream, written exactly
    one line to it and logged no error; or it returns PAM_SESSION_ERR,
    having written nothing and closed no stream, and the error record is the
    last thing it did: it is the only error record, and nothing is tried
    again after it.  In both cases the existence probe and the open are each
    made at most once. *)
Theorem all_or_nothing (PATH_MAX : nat) (w : world) (argv : list string) :
  let r := fst (hook PATH_MAX w argv) in
  let tr := snd (hook PATH_MAX w argv) in
  ((r = PAM_SUCCESS
    /\ (exists f line, writes tr = [(f, line)] /\ opens tr = [f])
    /\ forallb (fun e => negb (is_error_log e)) tr = true)
   \/
   (r = PAM_SESSION_ERR
    /\ writes tr = []
    /\ forallb (fun e => negb (is_close e)) tr = true
    /\ exists before fmt args,
         tr = (before ++ [EvSyslog LOG_ERR fmt args])%list
         /\ forallb (fun e => negb (is_error_log e)) before = true))
  /\ (List.length (probes tr) <= 1)%nat
  /\ (List.length (opens tr) <= 1)%nat.
Proof.
  cbv zeta. paths PATH_MAX w argv;
    try concrete_names w rhostname;
    (split; [| split; cbn; lia]);
    try (left; split; [reflexivity|];
         split; [do 2 eexists; split; reflexivity | destruct remove; reflexivity]);
    right; (split; [reflexivity|]); (split; [reflexivity|]);
    (split; [reflexivity|]);
    match goal with
    | |- exists before fmt args, ?l = _ /\ _ =>
        exists (removelast l); do 2 eexists; split; reflexivity
    end.
Qed.

(** C6 (argument errors).  An invocation with an argument count other than
    1 or 2 logs the argument-count error, returns PAM_SESSION_ERR and does
    nothing else: no probe, no open, no write.  An invocation with one or
    two arguments whose first argument, a C string, is neither "+" nor "-"
    logs the invalid-mode error naming that argument, returns
    PAM_SESSION_ERR and does nothing else. *)
Theorem bad_arguments_rejected (PATH_MAX : nat) (w : world) (argv : list string) :
  (List.length argv <> 1%nat -> List.length argv <> 2%nat ->
   hook PATH_MAX w argv = (PAM_SESSION_ERR, [log_argc (argc_of argv)])
   /\ writes (snd (hook PATH_MAX w argv)) = []
   /\ opens (snd (hook PATH_MAX w argv)) = [])
  /\
  (List.length argv = 1%nat \/ List.length argv = 2%nat ->
   nul_free (nth 0 argv "") = true ->
   nth 0 argv "" <> "+" -> nth 0 argv "" <> "-" ->
   hook PATH_MAX w argv = (PAM_SESSION_ERR, [log_mode (nth 0 argv "")])
   /\ writes (snd (hook PATH_MAX w argv)) = []
   /\ opens (snd (hook PATH_MAX w argv)) = []).
Proof.
  split.
  - intros H1 H2.
    assert (Hc' : argc_ok argv = false).
    { unfold argc_ok, argc_of. apply negb_false_iff, orb_true_iff.
      destruct (Z.ltb_spec (Z.of_nat (List.length argv)) 1); [now left | right].
      apply Z.gtb_lt. lia. }
    paths PATH_MAX w argv; try congruence. repeat split.
  - intros Hl Hn Hp Hm'.
    assert (Hc' : argc_ok argv = true).
    { unfold argc_ok, argc_of. destruct Hl as [-> | ->]; reflexivity. }
    paths PATH_MAX w argv; try congruence; try (repeat split; fail);
      apply (mode_of_marker _ _ Hn) in Hm; destruct remove; contradiction.
Qed.

Lemma bad_arguments_rejected_witness :
  hook 4096 modern_host ["-"; "MYLIMIT"; "extra"]
  = (PAM_SESSION_ERR, [log_argc 3])
  /\ hook 4096 modern_host ["add"; "MYLIMIT"]
     = (PAM_SESSION_ERR, [log_mode "add"]).
Proof.
  split.
  - apply (proj1 (bad_arguments_rejected 4096 modern_host ["-"; "MYLIMIT"; "extra"]));
      cbn; lia.
  - apply (proj2 (bad_arguments_rejected 4096 modern_host ["add"; "MYLIMIT"]));
      [ right; reflexivity | reflexivity | discriminate | discriminate ].
Defined.

(** C7, as stated, fails for an empty identifier.  With PAM_RHOST set to
    the empty string the module does not report a missing host: it hands
    the empty name to the resolver and, when that fails, reports the lookup
    failure. *)
Lemma empty_rhost_is_looked_up :
  w_pam_rhost empty_rhost_host = (PAM_SUCCESS, Some "")
  /\ hook 4096 empty_rhost_host ["-"]
     = (PAM_SESSION_ERR,
        [EvAccess "/proc/net/xt_recent/DEFAULT"; EvGetItem;
         EvGethostbyname ""; log_lookup "" HOST_NOT_FOUND])
  /\ ~ In log_no_rhost (snd (hook 4096 empty_rhost_host ["-"])).
Proof.
  split; [reflexivity|]. split; [reflexivity|].
  vm_compute. intros [H|[H|[H|[H|[]]]]]; discriminate H.
Qed.

(** C7, amended.  With valid arguments and PAM_RHOST not set (a NULL item),
    the invocation probes the new path, reads the item, logs the
    missing-host error and returns PAM_SESSION_ERR; nothing is opened or
    written.  An empty identifier is not treated as missing: it is handed
    to the resolver, and when the resolver rejects it the invocation fails
    with the lookup error, again without opening or writing. *)
Theorem missing_host_rejected (PATH_MAX : nat) (w : world) (argv : list string) :
  valid_args argv = true ->
  (w_pam_rhost w = (PAM_SUCCESS, None) ->
   hook PATH_MAX w argv
   = (PAM_SESSION_ERR,
      [EvAccess (snprintf_path PATH_MAX LOCNEW (dbname_of argv)); EvGetItem;
       log_no_rhost])
   /\ writes (snd (hook PATH_MAX w argv)) = []
   /\ opens (snd (hook PATH_MAX w argv)) = [])
  /\
  (forall h,
      w_pam_rhost w = (PAM_SUCCESS, Some "") ->
      w_gethostbyname w "" = inl h ->
      hook PATH_MAX w argv
      = (PAM_SESSION_ERR,
         [EvAccess (snprintf_path PATH_MAX LOCNEW (dbname_of argv)); EvGetItem;
          EvGethostbyname ""; log_lookup "" h])
      /\ writes (snd (hook PATH_MAX w argv)) = []
      /\ opens (snd (hook PATH_MAX w argv)) = []).
Proof.
  intros Hv. destruct (valid_args_mode _ Hv) as (Hc' & rem & Hm' & _).
  split.
  - intros Hi'. paths PATH_MAX w argv; try congruence.
    repeat split.
  - intros h0 Hi' Hg.
    assert (Hres' : resolve w "" = inl h0) by (unfold resolve; now rewrite Hg).
    assert (Hn' : names_looked_up w "" = [""])
      by (unfold names_looked_up; now rewrite Hg).
    paths PATH_MAX w argv; try congruence.
    rewrite Hi' in Hi. injection Hi as <-.
    rewrite Hres' in Hres. injection Hres as <-.
    rewrite Hn'. repeat split.
Qed.

Lemma missing_host_rejected_witness :
  valid_args ["-"; "MYLIMIT"] = true
  /\ hook 4096 local_login_host ["-"; "MYLIMIT"]
     = (PAM_SESSION_ERR,
        [EvAccess (snprintf_path 4096 LOCNEW "MYLIMIT"); EvGetItem; log_no_rhost]).
Proof.
  split; [reflexivity|].
  apply (proj1 (missing_host_rejected 4096 local_login_host ["-"; "MYLIMIT"] eq_refl)).
  reflexivity.
Defined.

(** C8, as stated, fails: in the run below the existence probe is the
    first call and the resolver is called after it, so resolution does not
    happen before the selection of the path. *)
Lemma lookup_not_before_probe :
  nth_error (snd (hook 4096 legacy_host ["+"])) 0
  = Some (EvAccess "/proc/net/xt_recent/DEFAULT")
  /\ nth_error (snd (hook 4096 legacy_host ["+"])) 2
     = Some (EvGethostbyname "203.0.113.5")
  /\ ~ happens_before is_lookup is_probe (snd (hook 4096 legacy_host ["+"])).
Proof.
  split; [reflexivity|]. split; [reflexivity|].
  intros H.
  assert (L : (2 < 0)%nat).
  { apply (H 2%nat 0%nat (EvGethostbyname "203.0.113.5")
             (EvAccess "/proc/net/xt_recent/DEFAULT")); reflexivity. }
  lia.
Qed.

(** C8, amended.  In every invocation the selection of the target path
    (the existence probe) comes first, every call of the resolver comes
    after it, and the write comes after both; and an invocation that writes
    has probed and has called the resolver. *)
Theorem call_order (PATH_MAX : nat) (w : world) (argv : list string) :
  let tr := snd (hook PATH_MAX w argv) in
  happens_before is_probe is_lookup tr
  /\ happens_before is_lookup is_write tr
  /\ happens_before is_probe is_write tr
  /\ (writes tr <> [] -> probes tr <> [] /\ lookups tr <> []).
Proof.
  cbv zeta. paths PATH_MAX w argv;
    try concrete_names w rhostname;
    (split; [apply ordered_happens_before; reflexivity|]);
    (split; [apply ordered_happens_before; reflexivity|]);
    (split; [apply ordered_happens_before; reflexivity|]);
    cbn; intros H; try contradiction; split; discriminate.
Qed.

Lemma call_order_witness :
  writes (snd (hook 4096 legacy_host ["+"])) <> []
  /\ probes (snd (hook 4096 legacy_host ["+"])) <> []
  /\ lookups (snd (hook 4096 legacy_host ["+"])) <> [].
Proof.
  assert (W : writes (snd (hook 4096 legacy_host ["+"])) <> [])
    by (vm_compute; discriminate).
  split; [exact W|].
  apply (call_order 4096 legacy_host ["+"]). exact W.
Defined.

(** C2 (fallback extraction).  When PAM_RHOST is a C string that contains
    a colon and the resolver rejects it, the name the module retries with is
    the one the specification's rules give, the source's pointer arithmetic
    and the specification's wording agreeing on every string: the resolver
    is called on the identifier and then, when a prefix pattern matches, once
    more on the extracted remainder, whose answer is the outcome of the
    resolution; when neither pattern matches the resolver is not called
    again and the invocation fails with the lookup error. *)
Theorem fallback_extraction (PATH_MAX : nat) (w : world) (argv : list string)
    (identifier : string) (herr : Z) :
  valid_args argv = true ->
  w_pam_rhost w = (PAM_SUCCESS, Some identifier) ->
  nul_free identifier = true ->
  contains ":" identifier = true ->
  w_gethostbyname w identifier = inl herr ->
  (forall s, embedded_ipv4 s = extract_embedded_ipv4_spec s)
  /\ lookups (snd (hook PATH_MAX w argv))
     = identifier :: match extract_embedded_ipv4_spec identifier with
                    | Some p => [p]
                    | None => []
                    end
  /\ (forall p, extract_embedded_ipv4_spec identifier = Some p ->
                resolve w identifier = w_gethostbyname w p)
  /\ (extract_embedded_ipv4_spec identifier = None ->
      hook PATH_MAX w argv
      = (PAM_SESSION_ERR,
         [EvAccess (snprintf_path PATH_MAX LOCNEW (dbname_of argv)); EvGetItem;
          EvGethostbyname identifier; log_lookup identifier herr])).
Proof.
  intros Hv Hi' Hn Hcolon Hg.
  destruct (valid_args_mode _ Hv) as (Hc' & rem & Hm' & _).
  assert (Hchr : exists q, strchr identifier ":" = Some q).
  { destruct (strchr identifier ":") as [q|] eqn:E; [eauto|].
    apply strchr_contains in E; [congruence | assumption | discriminate]. }
  destruct Hchr as (q & Hq).
  assert (Hnames : names_looked_up w identifier
                   = identifier :: match extract_embedded_ipv4_spec identifier with
                                  | Some p => [p]
                                  | None => []
                                  end).
  { unfold names_looked_up. rewrite Hg, Hq, embedded_ipv4_spec.
    now destruct (extract_embedded_ipv4_spec identifier). }
  assert (Hresolve : resolve w identifier
                     = match extract_embedded_ipv4_spec identifier with
                       | Some p => w_gethostbyname w p
                       | None => inl herr
                       end).
  { unfold resolve. now rewrite Hg, Hq, embedded_ipv4_spec. }
  split; [exact embedded_ipv4_spec|].
  split; [|split].
  - paths PATH_MAX w argv; try congruence;
      rewrite Hi' in Hi; injection Hi as <-;
      rewrite !lookups_app, lookups_names, Hnames; cbn [lookups app];
      now rewrite app_nil_r.
  - intros p Hp. now rewrite Hresolve, Hp.
  - intros Hnone. rewrite Hnone in Hnames, Hresolve.
    paths PATH_MAX w argv; try congruence.
    rewrite Hi' in Hi. injection Hi as <-.
    rewrite Hresolve in Hres. injection Hres as <-.
    rewrite Hnames. reflexivity.
Qed.

Lemma fallback_extraction_witness :
  extract_embedded_ipv4_spec "::ffff:203.0.113.5" = Some "203.0.113.5"
  /\ lookups (snd (hook 4096 mapped_host ["-"; "MYLIMIT"]))
     = ["::ffff:203.0.113.5"; "203.0.113.5"].
Proof.
  split; [reflexivity|].
  apply (fallback_extraction 4096 mapped_host ["-"; "MYLIMIT"]
           "::ffff:203.0.113.5" HOST_NOT_FOUND); reflexivity.
Defined.

(** C4, as stated, fails.  The module hands the resolver's entry to
    inet_ntop in the entry's own family and checks no family: on a host
    whose resolver answers "2001:db8::1" with an AF_INET6 entry the
    invocation succeeds and writes the IPv6 presentation form, which is not
    a dotted quad. *)
Lemma inet6_address_is_written :
  resolve inet6_host "2001:db8::1" = inr entry_2001_db8_1
  /\ h_addrtype entry_2001_db8_1 = AF_INET6
  /\ fst (hook 4096 inet6_host ["-"]) = PAM_SUCCESS
  /\ writes (snd (hook 4096 inet6_host ["-"]))
     = [("/proc/net/xt_recent/DEFAULT", "-2001:db8::1" ++ nl)]
  /\ is_dotted_quad "2001:db8::1" = false.
Proof. repeat split. Qed.

(** C4, amended.  The address in every line written is the text inet_ntop
    gives for the first address of the entry the resolution of PAM_RHOST
    ended with, in the family that entry reports: for an AF_INET entry the
    dotted quad of the address, for an AF_INET6 entry libc's IPv6 text.
    The module rejects no family itself: with valid arguments, an AF_INET6
    entry whose text fits the address buffer and a target that opens, the
    invocation succeeds and writes the IPv6 presentation form. *)
Theorem written_address_form (PATH_MAX : nat) (w : world) (argv : list string) :
  (forall f line,
      In (f, line) (writes (snd (hook PATH_MAX w argv))) ->
      exists mark identifier entry text,
        (mark = "+" \/ mark = "-")
        /\ w_pam_rhost w = (PAM_SUCCESS, Some identifier)
        /\ resolve w identifier = inr entry
        /\ In (EvInetNtop (h_addrtype entry) (nth 0 (h_addr_list entry) []))
              (snd (hook PATH_MAX w argv))
        /\ inet_ntop_text w (h_addrtype entry) (nth 0 (h_addr_list entry) []) 128
           = inr text
        /\ line = mark ++ text ++ nl
        /\ (h_addrtype entry = AF_INET ->
            text = inet_ntop4 (nth 0 (h_addr_list entry) [])
            /\ is_dotted_quad text = true)
        /\ (h_addrtype entry = AF_INET6 ->
            text = w_inet_ntop6 w (nth 0 (h_addr_list entry) [])))
  /\
  (forall identifier entry stream,
      valid_args argv = true ->
      w_pam_rhost w = (PAM_SUCCESS, Some identifier) ->
      resolve w identifier = inr entry ->
      h_addrtype entry = AF_INET6 ->
      (String.length (w_inet_ntop6 w (nth 0 (h_addr_list entry) [])) < 128)%nat ->
      w_fopen w (target_path PATH_MAX w (dbname_of argv)) = inr stream ->
      fst (hook PATH_MAX w argv) = PAM_SUCCESS
      /\ writes (snd (hook PATH_MAX w argv))
         = [(target_path PATH_MAX w (dbname_of argv),
             nth 0 argv "" ++ w_inet_ntop6 w (nth 0 (h_addr_list entry) []) ++ nl)]).
Proof.
  split.
  - intros f0 line0 Hin. paths PATH_MAX w argv;
      try (rewrite ?writes_app, ?writes_names in Hin; cbn in Hin; contradiction).
    rewrite !writes_app, writes_names in Hin. cbn in Hin.
    destruct Hin as [[= <- <-]|[]].
    exists (marker remove), rhostname, rhost, address.
    split; [destruct remove; [right | left]; reflexivity|].
    split; [exact Hi|]. split; [exact Hres|].
    split; [apply in_or_app; right; apply in_or_app; right; now left|].
    split; [exact Hpres|]. split; [reflexivity|].
    unfold presentation, inet_ntop_text in Hpres. split.
    + intros Haf. rewrite Haf in Hpres. cbn [Z.eqb AF_INET] in Hpres.
      destruct (Nat.ltb (String.length (inet_ntop4 (nth 0 (h_addr_list rhost) []))) 128);
        [|discriminate].
      injection Hpres as <-. split; [reflexivity | apply inet_ntop4_dotted_quad].
    + intros Haf. rewrite Haf in Hpres.
      change (AF_INET6 =? AF_INET) with false in Hpres.
      change (AF_INET6 =? AF_INET6) with true in Hpres. cbv iota in Hpres.
      destruct (Nat.ltb (String.length
                           (w_inet_ntop6 w (nth 0 (h_addr_list rhost) []))) 128);
        [|discriminate].
      now injection Hpres as <-.
  - intros identifier entry stream Hv Hi' Hres' Haf Hlen Ho.
    assert (Hp' : presentation w entry
                  = inr (w_inet_ntop6 w (nth 0 (h_addr_list entry) []))).
    { unfold presentation, inet_ntop_text. rewrite Haf.
      change (AF_INET6 =? AF_INET) with false.
      change (AF_INET6 =? AF_INET6) with true. cbv iota.
      apply Nat.ltb_lt in Hlen. now rewrite Hlen. }
    destruct (after_resolution PATH_MAX w argv _ _ Hv Hi' Hres') as (F & W & _).
    rewrite Hp', Ho in F, W. split; assumption.
Qed.

Lemma written_address_form_witness :
  (exists mark identifier entry text,
      (mark = "+" \/ mark = "-")
      /\ w_pam_rhost modern_host = (PAM_SUCCESS, Some identifier)
      /\ resolve modern_host identifier = inr entry
      /\ In (EvInetNtop (h_addrtype entry) (nth 0 (h_addr_list entry) []))
            (snd (hook 4096 modern_host ["-"; "MYLIMIT"]))
      /\ inet_ntop_text modern_host (h_addrtype entry)
           (nth 0 (h_addr_list entry) []) 128 = inr text
      /\ "-203.0.113.5" ++ nl = mark ++ text ++ nl
      /\ (h_addrtype entry = AF_INET ->
          text = inet_ntop4 (nth 0 (h_addr_list entry) [])
          /\ is_dotted_quad text = true)
      /\ (h_addrtype entry = AF_INET6 ->
          text = w_inet_ntop6 modern_host (nth 0 (h_addr_list entry) [])))
  /\ fst (hook 4096 inet6_host ["-"]) = PAM_SUCCESS
  /\ writes (snd (hook 4096 inet6_host ["-"]))
     = [("/proc/net/xt_recent/DEFAULT", "-2001:db8::1" ++ nl)].
Proof.
  split.
  - apply (proj1 (written_address_form 4096 modern_host ["-"; "MYLIMIT"])
             "/proc/net/xt_recent/MYLIMIT").
    now left.
  - apply (proj2 (written_address_form 4096 inet6_host ["-"])
             "2001:db8::1" entry_2001_db8_1 tt);
      solve [reflexivity | vm_compute; repeat constructor].
Defined.

(** With valid arguments the first two calls are the probe of the new
    candidate and the read of PAM_RHOST, there is no other probe, and
    whatever is opened or written is the selected path. *)
Lemma selected_path_used (PATH_MAX : nat) (w : world) (argv : list string) :
  valid_args argv = true ->
  (exists rest,
      snd (hook PATH_MAX w argv)
      = EvAccess (snprintf_path PATH_MAX LOCNEW (dbname_of argv)) :: EvGetItem :: rest)
  /\ probes (snd (hook PATH_MAX w argv))
     = [snprintf_path PATH_MAX LOCNEW (dbname_of argv)]
  /\ (forall p m, In (EvFopen p m) (snd (hook PATH_MAX w argv)) ->
                  p = target_path PATH_MAX w (dbname_of argv))
  /\ (forall f line, In (f, line) (writes (snd (hook PATH_MAX w argv))) ->
                     f = target_path PATH_MAX w (dbname_of argv)).
Proof.
  intros Hv. destruct (valid_args_mode _ Hv) as (Hc' & rem & Hm' & _).
  paths PATH_MAX w argv; try congruence;
    try concrete_names w rhostname;
    (split; [eexists; reflexivity|]); (split; [reflexivity|]);
    unfold log_item, log_no_rhost, log_lookup, log_conversion, log_open, log_done;
    split; cbn [In writes app]; intros;
    repeat match goal with
           | H : _ \/ _ |- _ => destruct H
           | H : False |- _ => contradiction
           end;
    congruence.
Qed.

Lemma length_append (a b : string) :
  String.length (a ++ b) = (String.length a + String.length b)%nat.
Proof. induction a as [|c r IH]; cbn; [reflexivity | now rewrite IH]. Qed.

(** C5, as stated, fails for a list name too long for the path buffer.
    With a buffer of 4096 bytes and a list name of 4090 characters nothing
    exists at the new path, yet the path probed and the path opened are the
    first 4095 bytes of the candidates, not the legacy path itself. *)
Lemma long_list_name_not_used_whole :
  nul_free long_name = true
  /\ w_access legacy_host (LOCNEW ++ "/" ++ long_name) <> 0
  /\ opens (snd (hook 4096 legacy_host ["-"; long_name]))
     = [substring 0 4095 (LOCOLD ++ "/" ++ long_name)]
  /\ substring 0 4095 (LOCOLD ++ "/" ++ long_name) <> LOCOLD ++ "/" ++ long_name.
Proof.
  split; [vm_compute; reflexivity|].
  split; [vm_compute; discriminate|].
  split; [vm_compute; reflexivity|].
  intros E. apply (f_equal String.length) in E. vm_compute in E. discriminate E.
Qed.

(** C5, amended.  For valid arguments that are C strings and a list name
    whose candidate paths fit in the path buffer: the only existence probe
    is of newBaseDir/listName, and it is followed by the read of PAM_RHOST,
    not by an error; the target is that path when the probe found an entry
    and legacyBaseDir/listName otherwise, which is never probed.  The
    target is the path used: once the address is resolved and converted,
    it is the one path opened, whether or not it exists; when it opens the
    one line is written to it, and when it does not the invocation fails
    only then, with nothing written. *)
Theorem target_path_selection (PATH_MAX : nat) (w : world) (argv : list string) :
  valid_args argv = true ->
  forallb nul_free argv = true ->
  (String.length (LOCOLD ++ "/" ++ dbname_of argv) < PATH_MAX)%nat ->
  let new_path := LOCNEW ++ "/" ++ dbname_of argv in
  let legacy_path := LOCOLD ++ "/" ++ dbname_of argv in
  let target := if w_access w new_path =? 0 then new_path else legacy_path in
  let tr := snd (hook PATH_MAX w argv) in
  probes tr = [new_path]
  /\ (exists rest, tr = EvAccess new_path :: EvGetItem :: rest)
  /\ (forall p m, In (EvFopen p m) tr -> p = target)
  /\ (forall f line, In (f, line) (writes tr) -> f = target)
  /\ (forall identifier entry address,
         w_pam_rhost w = (PAM_SUCCESS, Some identifier) ->
         resolve w identifier = inr entry ->
         presentation w entry = inr address ->
         opens tr = [target]
         /\ (forall stream,
                w_fopen w target = inr stream ->
                fst (hook PATH_MAX w argv) = PAM_SUCCESS
                /\ writes tr = [(target, nth 0 argv "" ++ address ++ nl)])
         /\ (forall err,
                w_fopen w target = inl err ->
                fst (hook PATH_MAX w argv) = PAM_SESSION_ERR
                /\ writes tr = [])).
Proof.
  intros Hv Hn Hl. cbv zeta.
  pose proof (nul_free_dbname _ Hn) as Hdb.
  assert (Hnew : snprintf_path PATH_MAX LOCNEW (dbname_of argv)
                 = LOCNEW ++ "/" ++ dbname_of argv).
  { apply snprintf_path_fits; [reflexivity | assumption |].
    rewrite length_append in *. cbn [String.length LOCNEW LOCOLD] in *. lia. }
  assert (Hold : snprintf_path PATH_MAX LOCOLD (dbname_of argv)
                 = LOCOLD ++ "/" ++ dbname_of argv)
    by (apply snprintf_path_fits; [reflexivity | assumption | assumption]).
  assert (Ht : target_path PATH_MAX w (dbname_of argv)
               = if w_access w (LOCNEW ++ "/" ++ dbname_of argv) =? 0
                 then LOCNEW ++ "/" ++ dbname_of argv
                 else LOCOLD ++ "/" ++ dbname_of argv).
  { unfold target_path. rewrite Hnew, Hold.
    now destruct (w_access w (LOCNEW ++ "/" ++ dbname_of argv) =? 0). }
  destruct (selected_path_used PATH_MAX w argv Hv) as (Hhead & Hprobe & Hopen & Hwrite).
  rewrite Hnew in Hhead, Hprobe. rewrite Ht in Hopen, Hwrite.
  repeat (split; [assumption|]).
  intros identifier entry address Hi' Hres' Hp'.
  destruct (after_resolution PATH_MAX w argv _ _ Hv Hi' Hres') as (F & W & O).
  rewrite Hp', Ht in *.
  split; [exact O|]. split.
  - intros stream Ho. rewrite Ho in F, W. split; assumption.
  - intros err Ho. rewrite Ho in F, W. split; assumption.
Qed.

Lemma target_path_selection_witness :
  (probes (snd (hook 4096 legacy_host ["-"; "MYLIMIT"]))
   = ["/proc/net/xt_recent/MYLIMIT"]
   /\ opens (snd (hook 4096 legacy_host ["-"; "MYLIMIT"]))
      = ["/proc/net/ipt_recent/MYLIMIT"])
  /\ opens (snd (hook 4096 modern_host ["-"; "MYLIMIT"]))
     = ["/proc/net/xt_recent/MYLIMIT"]
  /\ opens (snd (hook 4096 legacy_host ["-"; "NOSUCHLIST"]))
     = ["/proc/net/ipt_recent/NOSUCHLIST"].
Proof.
  pose proof (target_path_selection 4096 legacy_host ["-"; "MYLIMIT"]
                eq_refl eq_refl ltac:(cbn; lia)) as T1.
  pose proof (target_path_selection 4096 modern_host ["-"; "MYLIMIT"]
                eq_refl eq_refl ltac:(cbn; lia)) as T2.
  pose proof (target_path_selection 4096 legacy_host ["-"; "NOSUCHLIST"]
                eq_refl eq_refl ltac:(cbn; lia)) as T3.
  cbv zeta in T1, T2, T3.
  destruct T1 as (P1 & _ & _ & _ & U1).
  destruct T2 as (_ & _ & _ & _ & U2).
  destruct T3 as (_ & _ & _ & _ & U3).
  split; [split|split].
  - exact P1.
  - exact (proj1 (U1 "203.0.113.5" entry_203_0_113_5 "203.0.113.5"
                     eq_refl eq_refl eq_refl)).
  - exact (proj1 (U2 "203.0.113.5" entry_203_0_113_5 "203.0.113.5"
                     eq_refl eq_refl eq_refl)).
  - exact (proj1 (U3 "203.0.113.5" entry_203_0_113_5 "203.0.113.5"
                     eq_refl eq_refl eq_refl)).
Defined.

(** C9 (repetition).  Two invocations in succession with the same valid
    arguments, the second starting from the process state the first left,
    possibly on a changed host: when both succeed with the same resolved
    address, each appends exactly one line to what was written before, and
    the two lines are the same, the directive line of the mode argument and
    that address.  For the add action it is "+", the address, a newline. *)
Theorem repeated_invocation_same_line (PATH_MAX : nat) (w1 w2 : world)
    (argv : list string) (s : state) (address : string) :
  valid_args argv = true ->
  resolved_address w1 = Some address ->
  resolved_address w2 = Some address ->
  let first := onSessionOpen PATH_MAX w1 argv s in
  let second := onSessionOpen PATH_MAX w2 argv (snd first) in
  fst first = PAM_SUCCESS ->
  fst second = PAM_SUCCESS ->
  writes (trace (snd second))
  = (writes (trace s)
     ++ [(target_path PATH_MAX w1 (dbname_of argv),
          directive_line (nth 0 argv "") address);
         (target_path PATH_MAX w2 (dbname_of argv),
          directive_line (nth 0 argv "") address)])%list
  /\ (nth 0 argv "" = "+" ->
      directive_line (nth 0 argv "") address = "+" ++ address ++ nl).
Proof.
  intros Hv Ha1 Ha2. cbv zeta. intros Hs1 Hs2.
  destruct (valid_args_mode _ Hv) as (_ & rem & Hm' & Hmark).
  destruct (onSessionOpen_hook PATH_MAX w1 argv s) as [Hr1 Ht1].
  destruct (onSessionOpen_hook PATH_MAX w2 argv
              (snd (onSessionOpen PATH_MAX w1 argv s))) as [Hr2 Ht2].
  rewrite Hr1 in Hs1. rewrite Hr2 in Hs2.
  destruct (success_writes _ _ _ Hs1) as (rem1 & a1 & Hm1 & Hra1 & Hw1).
  destruct (success_writes _ _ _ Hs2) as (rem2 & a2 & Hm2 & Hra2 & Hw2).
  assert (rem1 = rem) by congruence. assert (rem2 = rem) by congruence.
  assert (a1 = address) by congruence. assert (a2 = address) by congruence.
  subst rem1 rem2 a1 a2.
  split.
  - rewrite Ht2, Ht1, !writes_app, Hw1, Hw2, Hmark, <- app_assoc. reflexivity.
  - intros ->. reflexivity.
Qed.

Lemma repeated_invocation_same_line_witness :
  let first := onSessionOpen 4096 legacy_host ["+"] init_state in
  let second := onSessionOpen 4096 modern_host ["+"] (snd first) in
  writes (trace (snd second))
  = [("/proc/net/ipt_recent/DEFAULT", "+203.0.113.5" ++ nl);
     ("/proc/net/xt_recent/DEFAULT", "+203.0.113.5" ++ nl)].
Proof.
  apply (repeated_invocation_same_line 4096 legacy_host modern_host ["+"]
           init_state "203.0.113.5"); reflexivity.
Defined.

(** C10 (truncation).  For valid arguments that are C strings and a path
    buffer of at least one byte, building the paths never fails: the first
    call is the existence probe of the buffer's content, followed by the
    read of PAM_RHOST, and once the address is resolved and converted the
    one path opened is the buffer's content for the selected candidate.
    When a candidate path does not fit in the buffer with its terminator,
    the buffer holds only its first PATH_MAX - 1 bytes, which is a
    different path from the intended one; so for a list name whose new
    candidate does not fit, the path probed is the cut new candidate and
    the path then opened is a cut candidate of PATH_MAX - 1 bytes, neither
    of the two intended paths. *)
Theorem overlong_path_truncated (PATH_MAX : nat) (w : world) (argv : list string) :
  valid_args argv = true ->
  forallb nul_free argv = true ->
  (1 <= PATH_MAX)%nat ->
  let db := dbname_of argv in
  let probed := snprintf_path PATH_MAX LOCNEW db in
  let fallback := snprintf_path PATH_MAX LOCOLD db in
  let tr := snd (hook PATH_MAX w argv) in
  (exists rest, tr = EvAccess probed :: EvGetItem :: rest)
  /\ (forall p m, In (EvFopen p m) tr ->
                  p = if w_access w probed =? 0 then probed else fallback)
  /\ ((PATH_MAX <= String.length (LOCNEW ++ "/" ++ db))%nat ->
      probed = substring 0 (PATH_MAX - 1) (LOCNEW ++ "/" ++ db)
      /\ String.length probed = (PATH_MAX - 1)%nat
      /\ probed <> LOCNEW ++ "/" ++ db)
  /\ ((PATH_MAX <= String.length (LOCOLD ++ "/" ++ db))%nat ->
      fallback = substring 0 (PATH_MAX - 1) (LOCOLD ++ "/" ++ db)
      /\ String.length fallback = (PATH_MAX - 1)%nat
      /\ fallback <> LOCOLD ++ "/" ++ db)
  /\ (forall identifier entry address,
         w_pam_rhost w = (PAM_SUCCESS, Some identifier) ->
         resolve w identifier = inr entry ->
         presentation w entry = inr address ->
         probes tr = [probed]
         /\ opens tr = [if w_access w probed =? 0 then probed else fallback]
         /\ ((PATH_MAX <= String.length (LOCNEW ++ "/" ++ db))%nat ->
             exists opened,
               opens tr = [opened]
               /\ (opened = substring 0 (PATH_MAX - 1) (LOCNEW ++ "/" ++ db)
                   \/ opened = substring 0 (PATH_MAX - 1) (LOCOLD ++ "/" ++ db))
               /\ String.length opened = (PATH_MAX - 1)%nat
               /\ opened <> LOCNEW ++ "/" ++ db
               /\ opened <> LOCOLD ++ "/" ++ db)).
Proof.
  intros Hv Hn Hpm. cbv zeta.
  pose proof (nul_free_dbname _ Hn) as Hdb.
  destruct (selected_path_used PATH_MAX w argv Hv) as (Hhead & Hprobe & Hopen & _).
  assert (Ht : target_path PATH_MAX w (dbname_of argv)
               = if w_access w (snprintf_path PATH_MAX LOCNEW (dbname_of argv)) =? 0
                 then snprintf_path PATH_MAX LOCNEW (dbname_of argv)
                 else snprintf_path PATH_MAX LOCOLD (dbname_of argv)).
  { unfold target_path.
    now destruct (w_access w (snprintf_path PATH_MAX LOCNEW (dbname_of argv)) =? 0). }
  assert (Hcut_new : (PATH_MAX <= String.length (LOCNEW ++ "/" ++ dbname_of argv))%nat ->
            snprintf_path PATH_MAX LOCNEW (dbname_of argv)
            = substring 0 (PATH_MAX - 1) (LOCNEW ++ "/" ++ dbname_of argv)
            /\ String.length (snprintf_path PATH_MAX LOCNEW (dbname_of argv))
               = (PATH_MAX - 1)%nat
            /\ snprintf_path PATH_MAX LOCNEW (dbname_of argv)
               <> LOCNEW ++ "/" ++ dbname_of argv)
    by (intros Hl; apply snprintf_path_cut; [reflexivity | assumption | lia]).
  assert (Hcut_old : (PATH_MAX <= String.length (LOCOLD ++ "/" ++ dbname_of argv))%nat ->
            snprintf_path PATH_MAX LOCOLD (dbname_of argv)
            = substring 0 (PATH_MAX - 1) (LOCOLD ++ "/" ++ dbname_of argv)
            /\ String.length (snprintf_path PATH_MAX LOCOLD (dbname_of argv))
               = (PATH_MAX - 1)%nat
            /\ snprintf_path PATH_MAX LOCOLD (dbname_of argv)
               <> LOCOLD ++ "/" ++ dbname_of argv)
    by (intros Hl; apply snprintf_path_cut; [reflexivity | assumption | lia]).
  split; [exact Hhead|]. split; [|split; [exact Hcut_new | split; [exact Hcut_old|]]].
  - intros p m Hin. rewrite (Hopen p m Hin). exact Ht.
  - intros identifier entry address Hi' Hres' Hp'.
    destruct (after_resolution PATH_MAX w argv _ _ Hv Hi' Hres') as (_ & _ & O).
    rewrite Hp', Ht in O.
    split; [exact Hprobe|]. split; [exact O|].
    intros Hl.
    assert (Hl' : (PATH_MAX <= String.length (LOCOLD ++ "/" ++ dbname_of argv))%nat).
    { rewrite length_append in *. cbn [String.length LOCNEW LOCOLD] in *. lia. }
    assert (Hlen : String.length (LOCOLD ++ "/" ++ dbname_of argv)
                   = S (String.length (LOCNEW ++ "/" ++ dbname_of argv))).
    { rewrite !length_append. reflexivity. }
    destruct (Hcut_new Hl) as (En & Ln & Nn).
    destruct (Hcut_old Hl') as (Eo & Lo & No).
    rewrite O.
    destruct (w_access w (snprintf_path PATH_MAX LOCNEW (dbname_of argv)) =? 0).
    + eexists. split; [reflexivity|]. split; [left; exact En|].
      split; [exact Ln|]. split; [exact Nn|].
      intros E. rewrite E in Ln. lia.
    + eexists. split; [reflexivity|]. split; [right; exact Eo|].
      split; [exact Lo|]. split; [|exact No].
      intros E. rewrite E in Lo. lia.
Qed.

Lemma overlong_path_truncated_witness :
  (4096 <= String.length (LOCNEW ++ "/" ++ long_name))%nat
  /\ probes (snd (hook 4096 legacy_host ["-"; long_name]))
     = [snprintf_path 4096 LOCNEW long_name]
  /\ String.length (snprintf_path 4096 LOCNEW long_name) = 4095%nat
  /\ snprintf_path 4096 LOCNEW long_name <> LOCNEW ++ "/" ++ long_name
  /\ exists opened,
       opens (snd (hook 4096 legacy_host ["-"; long_name])) = [opened]
       /\ (opened = substring 0 4095 (LOCNEW ++ "/" ++ long_name)
           \/ opened = substring 0 4095 (LOCOLD ++ "/" ++ long_name))
       /\ String.length opened = 4095%nat
       /\ opened <> LOCNEW ++ "/" ++ long_name
       /\ opened <> LOCOLD ++ "/" ++ long_name.
Proof.
  assert (L : (4096 <= String.length (LOCNEW ++ "/" ++ long_name))%nat)
    by (vm_compute; repeat constructor).
  split; [exact L|].
  pose proof (overlong_path_truncated 4096 legacy_host ["-"; long_name]
                eq_refl eq_refl ltac:(lia)) as T.
  cbv zeta in T. destruct T as (_ & _ & Hnew & _ & Hused).
  destruct (Hused "203.0.113.5" entry_203_0_113_5 "203.0.113.5"
              eq_refl eq_refl eq_refl) as (Hprobe & _ & Hopened).
  destruct (Hnew L) as (_ & Hlen & Hneq).
  split; [exact Hprobe|]. split; [exact Hlen|]. split; [exact Hneq|].
  exact (Hopened L).
Defined.

(* ================================================================== *)
(** ** Further properties of the module *)

Lemma resolve_direct (w : world) (identifier : string) (rhost : hostent) :
  w_gethostbyname w identifier = inr rhost ->
  resolve w identifier = inr rhost /\ names_looked_up w identifier = [identifier].
Proof.
  intros H. unfold resolve, names_looked_up. rewrite H.
  now destruct (strchr identifier ":").
Qed.

Lemma octet_length (src : list byte) (i : nat) :
  (String.length (octet src i) <= 3)%nat.
Proof.
  unfold octet. destruct (nth i src x00); vm_compute; repeat constructor.
Qed.

Lemma presentation_inet (w : world) (rhost : hostent) :
  h_addrtype rhost = AF_INET ->
  presentation w rhost = inr (inet_ntop4 (nth 0 (h_addr_list rhost) [])).
Proof.
  intros H. unfold presentation, inet_ntop_text. rewrite H. cbn [Z.eqb AF_INET].
  set (a := nth 0 (h_addr_list rhost) []).
  assert (L : (String.length (inet_ntop4 a) < 128)%nat).
  { unfold inet_ntop4. rewrite !length_append. cbn [String.length].
    pose proof (octet_length a 0). pose proof (octet_length a 1).
    pose proof (octet_length a 2). pose proof (octet_length a 3). lia. }
  apply Nat.ltb_lt in L. now rewrite L.
Qed.

(** X2 (item failure).  When pam_get_item does not return PAM_SUCCESS the
    invocation logs that failure with the code returned and fails; whatever
    the call stored as the identifier is not used: the resolver is not
    called and nothing is opened. *)
Theorem item_failure_reported (PATH_MAX : nat) (w : world) (argv : list string)
    (r : Z) (p : option string) :
  valid_args argv = true ->
  w_pam_rhost w = (r, p) ->
  r <> PAM_SUCCESS ->
  hook PATH_MAX w argv
  = (PAM_SESSION_ERR,
     [EvAccess (snprintf_path PATH_MAX LOCNEW (dbname_of argv)); EvGetItem;
      log_item r]).
Proof.
  intros Hv Hi' Hr'. destruct (valid_args_mode _ Hv) as (Hc' & rem & Hm' & _).
  paths PATH_MAX w argv; congruence.
Qed.

Lemma item_failure_reported_witness :
  hook 4096 broken_item_host ["-"]
  = (PAM_SESSION_ERR,
     [EvAccess (snprintf_path 4096 LOCNEW (dbname_of ["-"])); EvGetItem;
      log_item PAM_SYSTEM_ERR]).
Proof.
  apply (item_failure_reported 4096 broken_item_host ["-"] PAM_SYSTEM_ERR
           (Some "203.0.113.5")); [reflexivity | reflexivity | discriminate].
Defined.

(** X4 (an IPv4 login is recorded).  With valid arguments, an identifier
    the resolver accepts with an AF_INET entry and a target that opens, the
    invocation succeeds: the 128-byte address buffer always holds the
    dotted quad, so the conversion cannot fail, and the calls are the probe,
    the item read, one lookup, the conversion, the open for writing, the
    one line (mode argument, dotted quad, newline), the close and the debug
    record naming identifier, address and list. *)
Theorem ipv4_login_recorded (PATH_MAX : nat) (w : world) (argv : list string)
    (identifier : string) (entry : hostent) (stream : unit) :
  valid_args argv = true ->
  w_pam_rhost w = (PAM_SUCCESS, Some identifier) ->
  w_gethostbyname w identifier = inr entry ->
  h_addrtype entry = AF_INET ->
  w_fopen w (target_path PATH_MAX w (dbname_of argv)) = inr stream ->
  let target := target_path PATH_MAX w (dbname_of argv) in
  let quad := inet_ntop4 (nth 0 (h_addr_list entry) []) in
  hook PATH_MAX w argv
  = (PAM_SUCCESS,
     [EvAccess (snprintf_path PATH_MAX LOCNEW (dbname_of argv)); EvGetItem;
      EvGethostbyname identifier;
      EvInetNtop AF_INET (nth 0 (h_addr_list entry) []);
      EvFopen target "w";
      EvFprintf target (nth 0 argv "" ++ quad ++ nl);
      EvFclose target;
      log_done (String.eqb (nth 0 argv "") "-") identifier quad (dbname_of argv)]).
Proof.
  intros Hv Hi' Hg Haf Ho. cbv zeta.
  destruct (valid_args_mode _ Hv) as (Hc' & rem & Hm' & Hmark).
  destruct (resolve_direct _ _ _ Hg) as [Hres' Hnames].
  pose proof (presentation_inet w entry Haf) as Hp'.
  paths PATH_MAX w argv; try congruence.
  rewrite Hi' in Hi. injection Hi as <-.
  rewrite Hres' in Hres. injection Hres as <-.
  rewrite Hp' in Hpres. injection Hpres as <-.
  assert (remove = rem) by congruence. subst remove.
  rewrite Hnames, Haf, Hmark. destruct rem; reflexivity.
Qed.

Lemma ipv4_login_recorded_witness :
  fst (hook 4096 modern_host ["-"; "MYLIMIT"]) = PAM_SUCCESS
  /\ writes (snd (hook 4096 modern_host ["-"; "MYLIMIT"]))
     = [("/proc/net/xt_recent/MYLIMIT", "-203.0.113.5" ++ nl)].
Proof.
  rewrite (ipv4_login_recorded 4096 modern_host ["-"; "MYLIMIT"] "203.0.113.5"
             entry_203_0_113_5 tt eq_refl eq_refl eq_refl eq_refl eq_refl).
  split; reflexivity.
Defined.

(** X5 (unprintable family).  When the resolver's entry is of a family
    other than AF_INET and AF_INET6 the conversion fails, and the
    invocation fails with the conversion error before anything is opened:
    no pseudo-file is touched. *)
Theorem unknown_family_rejected (PATH_MAX : nat) (w : world) (argv : list string)
    (identifier : string) (entry : hostent) :
  valid_args argv = true ->
  w_pam_rhost w = (PAM_SUCCESS, Some identifier) ->
  w_gethostbyname w identifier = inr entry ->
  h_addrtype entry <> AF_INET ->
  h_addrtype entry <> AF_INET6 ->
  hook PATH_MAX w argv
  = (PAM_SESSION_ERR,
     [EvAccess (snprintf_path PATH_MAX LOCNEW (dbname_of argv)); EvGetItem;
      EvGethostbyname identifier;
      EvInetNtop (h_addrtype entry) (nth 0 (h_addr_list entry) []);
      log_conversion EAFNOSUPPORT]).
Proof.
  intros Hv Hi' Hg H4 H6.
  destruct (valid_args_mode _ Hv) as (Hc' & rem & Hm' & _).
  destruct (resolve_direct _ _ _ Hg) as [Hres' Hnames].
  assert (Hp' : presentation w entry = inl EAFNOSUPPORT).
  { unfold presentation, inet_ntop_text.
    apply Z.eqb_neq in H4, H6. now rewrite H4, H6. }
  paths PATH_MAX w argv; try congruence.
  rewrite Hi' in Hi. injection Hi as <-.
  rewrite Hres' in Hres. injection Hres as <-.
  rewrite Hp' in Hpres. injection Hpres as <-.
  rewrite Hnames. reflexivity.
Qed.

Lemma unknown_family_rejected_witness :
  opens (snd (hook 4096 odd_family_host ["+"])) = []
  /\ fst (hook 4096 odd_family_host ["+"]) = PAM_SESSION_ERR.
Proof.
  rewrite (unknown_family_rejected 4096 odd_family_host ["+"] "gateway"
             (mk_hostent 0 [addr_203_0_113_5]) eq_refl eq_refl eq_refl);
    [split; reflexivity | discriminate | discriminate].
Defined.

(** X6 (open failure).  When the selected path does not open, the
    invocation fails with the open error naming the path it tried, the
    legacy path when the probe of the new one found nothing, and the errno
    of the open; by then the address has been resolved and converted, and
    nothing is written or closed. *)
Theorem open_failure_reported (PATH_MAX : nat) (w : world) (argv : list string)
    (identifier : string) (entry : hostent) (err : Z) :
  valid_args argv = true ->
  w_pam_rhost w = (PAM_SUCCESS, Some identifier) ->
  w_gethostbyname w identifier = inr entry ->
  h_addrtype entry = AF_INET ->
  w_fopen w (target_path PATH_MAX w (dbname_of argv)) = inl err ->
  let target := target_path PATH_MAX w (dbname_of argv) in
  hook PATH_MAX w argv
  = (PAM_SESSION_ERR,
     [EvAccess (snprintf_path PATH_MAX LOCNEW (dbname_of argv)); EvGetItem;
      EvGethostbyname identifier;
      EvInetNtop AF_INET (nth 0 (h_addr_list entry) []);
      EvFopen target "w";
      log_open target err])
  /\ (w_access w (snprintf_path PATH_MAX LOCNEW (dbname_of argv)) <> 0 ->
      target = snprintf_path PATH_MAX LOCOLD (dbname_of argv)).
Proof.
  intros Hv Hi' Hg Haf Ho. cbv zeta.
  destruct (valid_args_mode _ Hv) as (Hc' & rem & Hm' & _).
  destruct (resolve_direct _ _ _ Hg) as [Hres' Hnames].
  pose proof (presentation_inet w entry Haf) as Hp'.
  split.
  - paths PATH_MAX w argv; try congruence.
    rewrite Hi' in Hi. injection Hi as <-.
    rewrite Hres' in Hres. injection Hres as <-.
    rewrite Ho in Hopen. injection Hopen as <-.
    rewrite Hnames, Haf. reflexivity.
  - intros Ha. unfold target_path. apply Z.eqb_neq in Ha. now rewrite Ha.
Qed.

Lemma open_failure_reported_witness :
  hook 4096 legacy_host ["-"; "NOSUCHLIST"]
  = (PAM_SESSION_ERR,
     [EvAccess "/proc/net/xt_recent/NOSUCHLIST"; EvGetItem;
      EvGethostbyname "203.0.113.5"; EvInetNtop AF_INET addr_203_0_113_5;
      EvFopen "/proc/net/ipt_recent/NOSUCHLIST" "w";
      log_open "/proc/net/ipt_recent/NOSUCHLIST" ENOENT]).
Proof.
  apply (proj1 (open_failure_reported 4096 legacy_host ["-"; "NOSUCHLIST"]
                  "203.0.113.5" entry_203_0_113_5 ENOENT
                  eq_refl eq_refl eq_refl eq_refl eq_refl)).
Defined.

Lemma strchr_found (s : string) (c : ascii) :
  nul_free s = true -> contains c s = true -> exists q, strchr s c = Some q.
Proof.
  intros Hs Hc. destruct (strchr s c) as [q|] eqn:E; [eauto|].
  destruct (Z.eqb_spec (code c) 0) as [Z0|NZ].
  - destruct s; cbn in E; [rewrite Z0 in E; discriminate|].
    induction s as [|b r IH] in a, Hs, Hc, E |- *.
    + cbn in *. apply andb_true_iff in Hs. destruct Hs as [Ha _].
      apply negb_true_iff in Ha. rewrite orb_false_r in Hc.
      apply Ascii.eqb_eq in Hc. subst a. rewrite Z0 in Ha. discriminate.
    + cbn in Hs. apply andb_true_iff in Hs. destruct Hs as [Ha Hs].
      apply negb_true_iff in Ha.
      cbn in Hc. destruct (Ascii.eqb_spec a c) as [->|Nac].
      * rewrite Z0 in Ha. discriminate.
      * cbn [orb] in Hc. rewrite code_eqb in E.
        apply Ascii.eqb_neq in Nac. rewrite Nac, Ha in E.
        apply (IH b); [exact Hs | exact Hc | exact E].
  - apply strchr_contains in E; [congruence | assumption | assumption].
Qed.

Lemma strchr_absent (s : string) (c : ascii) :
  code c <> 0 -> contains c s = false -> strchr s c = None.
Proof.
  intros Hc. induction s as [|a r IH]; cbn.
  - apply Z.eqb_neq in Hc. now rewrite Hc.
  - intros H. apply orb_false_iff in H. destruct H as [Ha Hr].
    rewrite code_eqb, Ha. destruct (code a =? 0); [reflexivity | now apply IH].
Qed.

(** X3 (failed retry).  When the resolver rejects both the identifier and
    the IPv4 text extracted from it, the invocation fails with the lookup
    error; the record names the identifier as PAM gave it, not the extracted
    text, and carries the error code of the second lookup.  Nothing is
    converted or opened. *)
Theorem retry_failure_reported (PATH_MAX : nat) (w : world) (argv : list string)
    (identifier extracted : string) (h1 h2 : Z) :
  valid_args argv = true ->
  w_pam_rhost w = (PAM_SUCCESS, Some identifier) ->
  nul_free identifier = true ->
  contains ":" identifier = true ->
  embedded_ipv4 identifier = Some extracted ->
  w_gethostbyname w identifier = inl h1 ->
  w_gethostbyname w extracted = inl h2 ->
  hook PATH_MAX w argv
  = (PAM_SESSION_ERR,
     [EvAccess (snprintf_path PATH_MAX LOCNEW (dbname_of argv)); EvGetItem;
      EvGethostbyname identifier; EvGethostbyname extracted;
      log_lookup identifier h2]).
Proof.
  intros Hv Hi' Hn Hcolon Hx Hg1 Hg2.
  destruct (valid_args_mode _ Hv) as (Hc' & rem & Hm' & _).
  destruct (strchr_found _ _ Hn Hcolon) as (q & Hq).
  assert (Hres' : resolve w identifier = inl h2)
    by (unfold resolve; now rewrite Hg1, Hq, Hx).
  assert (Hnames : names_looked_up w identifier = [identifier; extracted])
    by (unfold names_looked_up; now rewrite Hg1, Hq, Hx).
  paths PATH_MAX w argv; try congruence.
  rewrite Hi' in Hi. injection Hi as <-.
  rewrite Hres' in Hres. injection Hres as <-.
  rewrite Hnames. reflexivity.
Qed.

Lemma retry_failure_reported_witness :
  hook 4096 unknown_mapped_host ["-"]
  = (PAM_SESSION_ERR,
     [EvAccess (snprintf_path 4096 LOCNEW (dbname_of ["-"])); EvGetItem;
      EvGethostbyname "::ffff:198.51.100.7"; EvGethostbyname "198.51.100.7";
      log_lookup "::ffff:198.51.100.7" HOST_NOT_FOUND]).
Proof.
  apply (retry_failure_reported 4096 unknown_mapped_host ["-"]
           "::ffff:198.51.100.7" "198.51.100.7" HOST_NOT_FOUND HOST_NOT_FOUND);
    reflexivity.
Defined.

(** X10 (no needless retry).  The extraction is a fallback only.  An
    identifier the resolver accepts is looked up exactly once, even when it
    is written in the mixed notation; and an identifier without a colon is
    looked up exactly once as well, a rejection being final: the invocation
    fails with the lookup error carrying that lookup's code. *)
Theorem single_lookup (PATH_MAX : nat) (w : world) (argv : list string)
    (identifier : string) :
  valid_args argv = true ->
  w_pam_rhost w = (PAM_SUCCESS, Some identifier) ->
  ((exists entry, w_gethostbyname w identifier = inr entry) ->
   lookups (snd (hook PATH_MAX w argv)) = [identifier])
  /\ (contains ":" identifier = false ->
      lookups (snd (hook PATH_MAX w argv)) = [identifier]
      /\ forall herr,
          w_gethostbyname w identifier = inl herr ->
          hook PATH_MAX w argv
          = (PAM_SESSION_ERR,
             [EvAccess (snprintf_path PATH_MAX LOCNEW (dbname_of argv)); EvGetItem;
              EvGethostbyname identifier; log_lookup identifier herr])).
Proof.
  intros Hv Hi'. destruct (valid_args_mode _ Hv) as (Hc' & rem & Hm' & _).
  assert (Hlook : names_looked_up w identifier = [identifier] ->
                  lookups (snd (hook PATH_MAX w argv)) = [identifier]).
  { intros Hnames. paths PATH_MAX w argv; try congruence;
      rewrite Hi' in Hi; injection Hi as <-;
      rewrite !lookups_app, lookups_names, Hnames; reflexivity. }
  split.
  - intros (entry & Hg). apply Hlook. now apply (resolve_direct _ _ entry).
  - intros Hno.
    assert (Hq : strchr identifier ":" = None)
      by (apply strchr_absent; [discriminate | assumption]).
    assert (Hnames : names_looked_up w identifier = [identifier]).
    { unfold names_looked_up. rewrite Hq.
      now destruct (w_gethostbyname w identifier). }
    split; [now apply Hlook|].
    intros herr Hg.
    assert (Hres' : resolve w identifier = inl herr)
      by (unfold resolve; now rewrite Hg, Hq).
    paths PATH_MAX w argv; try congruence.
    rewrite Hi' in Hi. injection Hi as <-.
    rewrite Hres' in Hres. injection Hres as <-.
    rewrite Hnames. reflexivity.
Qed.

Lemma single_lookup_witness :
  embedded_ipv4 "::ffff:203.0.113.5" = Some "203.0.113.5"
  /\ lookups (snd (hook 4096 lenient_host ["+"])) = ["::ffff:203.0.113.5"].
Proof.
  split; [reflexivity|].
  apply (proj1 (single_lookup 4096 lenient_host ["+"] "::ffff:203.0.113.5"
                  eq_refl eq_refl)).
  exists entry_203_0_113_5. reflexivity.
Defined.

(** X11 (stream discipline).  The module opens at most one stream per
    invocation, always for writing.  A stream that opens is written exactly
    once and then closed before the function returns; when the open fails
    or is never reached, nothing is written and nothing is closed. *)
Theorem stream_discipline (PATH_MAX : nat) (w : world) (argv : list string) :
  let tr := snd (hook PATH_MAX w argv) in
  forallb (String.eqb "w") (open_modes tr) = true
  /\ ((opens tr = [] /\ writes tr = [] /\ closes tr = [])
      \/ (exists t err, opens tr = [t] /\ w_fopen w t = inl err
                        /\ writes tr = [] /\ closes tr = [])
      \/ (exists t u line, opens tr = [t] /\ w_fopen w t = inr u
                           /\ writes tr = [(t, line)] /\ closes tr = [t]))
  /\ happens_before is_open is_write tr
  /\ happens_before is_write is_close tr.
Proof.
  cbv zeta. paths PATH_MAX w argv;
    try concrete_names w rhostname;
    (split; [reflexivity|]);
    (split; [| split; apply ordered_happens_before; reflexivity]);
    try (left; repeat split; fail);
    try (right; left; do 2 eexists; repeat split; eassumption);
    right; right; do 3 eexists; repeat split; eassumption.
Qed.

Lemma same_arguments_same_run (PATH_MAX : nat) (w : world)
    (argv1 argv2 : list string) :
  argc_ok argv1 = argc_ok argv2 ->
  (argc_ok argv1 = false -> argc_of argv1 = argc_of argv2) ->
  nth 0 argv1 "" = nth 0 argv2 "" ->
  dbname_of argv1 = dbname_of argv2 ->
  hook PATH_MAX w argv1 = hook PATH_MAX w argv2.
Proof.
  intros Hc12 Hn12 H0 Hdb.
  pose proof (hook_run PATH_MAX w argv1) as R1.
  pose proof (hook_run PATH_MAX w argv2) as R2.
  assert (R : run PATH_MAX w argv2 (fst (hook PATH_MAX w argv1))
                  (snd (hook PATH_MAX w argv1))).
  { destruct R1; rewrite ?Hdb, ?H0 in *.
    - rewrite Hn12 by assumption. apply run_argc. congruence.
    - apply run_mode; congruence.
    - eapply run_item; try eassumption; congruence.
    - eapply run_no_rhost; try eassumption; congruence.
    - eapply run_lookup; try eassumption; congruence.
    - eapply run_conversion; try eassumption; congruence.
    - eapply run_open; try eassumption; congruence.
    - eapply run_written; try eassumption; congruence. }
  destruct (run_deterministic _ _ _ _ _ _ _ R R2) as [E1 E2].
  destruct (hook PATH_MAX w argv1), (hook PATH_MAX w argv2). cbn in *. congruence.
Qed.

(** X12 (default list).  Leaving out the list name is the same as naming
    the list "DEFAULT": for every mode argument, accepted or not, the two
    invocations return the same result and make the same calls. *)
Theorem default_list_name (PATH_MAX : nat) (w : world) (mode : string) :
  hook PATH_MAX w [mode] = hook PATH_MAX w [mode; "DEFAULT"].
Proof.
  apply same_arguments_same_run; try reflexivity. discriminate.
Qed.

(** *** Prefixes of the mixed notation *)

Lemma take_skip (n : nat) (s : string) : substring 0 n s ++ skip n s = s.
Proof.
  revert s. induction n as [|n IH]; intros s.
  - now destruct s.
  - destruct s as [|c r]; cbn; [reflexivity | now rewrite IH].
Qed.

Lemma lower_take (n : nat) (s : string) :
  lower (substring 0 n s) = substring 0 n (lower s).
Proof.
  revert s. induction n as [|n IH]; intros s; destruct s as [|c r]; cbn;
    try reflexivity.
  now rewrite IH.
Qed.

Lemma lower_append (a b : string) : lower (a ++ b) = lower a ++ lower b.
Proof. induction a as [|c r IH]; cbn; [reflexivity | now rewrite IH]. Qed.

Lemma append_assoc (a b c : string) : (a ++ b) ++ c = a ++ (b ++ c).
Proof. induction a as [|x r IH]; cbn; [reflexivity | now rewrite IH]. Qed.

(** A case-sensitive match splits the string at the literal. *)
Lemma starts_with_split (lit s : string) :
  starts_with lit s = true -> s = lit ++ skip (String.length lit) s.
Proof.
  intros H. apply prefix_correct in H.
  transitivity (substring 0 (String.length lit) s ++ skip (String.length lit) s).
  - symmetry. apply take_skip.
  - now rewrite H.
Qed.

(** A case-insensitive match splits it at a prefix equal to the literal
    up to case. *)
Lemma starts_with_ci_split (lit s : string) :
  starts_with_ci lit s = true ->
  exists pre, s = pre ++ skip (String.length lit) s /\ lower pre = lower lit.
Proof.
  intros H. unfold starts_with_ci in H. apply prefix_correct in H.
  assert (L : String.length (lower lit) = String.length lit).
  { clear. induction lit as [|c r IH]; cbn; [reflexivity | now rewrite IH]. }
  rewrite L in H.
  exists (substring 0 (String.length lit) s). split.
  - symmetry. apply take_skip.
  - now rewrite lower_take.
Qed.

Lemma lower_char_colon (c : ascii) : lower_char c = ":"%char -> c = ":"%char.
Proof. apply lower_char_nonletter. vm_compute. left. reflexivity. Qed.

Lemma lower_char_zero (c : ascii) : lower_char c = "0"%char -> c = "0"%char.
Proof. apply lower_char_nonletter. vm_compute. left. reflexivity. Qed.

Lemma lower_char_f (c : ascii) :
  lower_char c = "f"%char -> c = "f"%char \/ c = "F"%char.
Proof.
  intros H. apply (f_equal code) in H. rewrite code_lower_char in H.
  change (code "f") with 102 in H. unfold tolower in H.
  destruct ((65 <=? code c) && (code c <=? 90)) eqn:E.
  - right. apply code_inj. change (code "F") with 70. lia.
  - left. apply code_inj. exact H.
Qed.

Ltac explode pre H :=
  repeat (destruct pre as [|?c pre]; cbn [lower] in H;
          [discriminate H | injection H as ? H]);
  destruct pre; [clear H | discriminate H];
  repeat match goal with
         | E : lower_char _ = ":"%char |- _ => apply lower_char_colon in E; subst
         | E : lower_char _ = "0"%char |- _ => apply lower_char_zero in E; subst
         | E : lower_char _ = "f"%char |- _ =>
             apply lower_char_f in E; destruct E; subst
         end.

Lemma full_mixed_prefix_stripped (pre a : string) :
  full_mixed_prefix pre = true ->
  embedded_ipv4 (pre ++ a) = Some a
  /\ exists q, strchr (pre ++ a) ":" = Some q.
Proof.
  unfold full_mixed_prefix. cbn [member]. rewrite orb_false_r.
  intros H. apply orb_true_iff in H. destruct H as [H|H];
    [|apply orb_true_iff in H; destruct H as [H|H]];
    apply String.eqb_eq in H; explode pre H;
    (split; [reflexivity | eexists; reflexivity]).
Qed.

Ltac extracted_is :=
  match goal with
  | |- Some ?x = Some ?y -> _ =>
      let E := fresh "E" in
      let E' := fresh "E" in
      intros E; assert (E' : x = y) by congruence; clear E; subst y
  end.

(** X8 (what the extraction removes).  Whatever the extraction returns is
    the identifier with a prefix removed and nothing else changed, and the
    prefix is, up to the case of its letters, one of "::", "::ffff:",
    "0:0:0:0:0:", "0:0:0:0:0:0:" and "0:0:0:0:0:ffff:".  The remainder is
    not checked to be an IPv4 address. *)
Theorem embedded_ipv4_is_suffix (identifier extracted : string) :
  embedded_ipv4 identifier = Some extracted ->
  exists pre, identifier = pre ++ extracted /\ mixed_prefix pre = true.
Proof.
  unfold embedded_ipv4.
  pose proof (strncmp_prefix "::" identifier eq_refl) as H1.
  pose proof (strncasecmp_prefix "0:0:0:0:0:" identifier eq_refl) as H2.
  pose proof (strncasecmp_prefix "ffff:" (skip 2 identifier) eq_refl) as H3.
  pose proof (strncasecmp_prefix "ffff:" (skip 10 identifier) eq_refl) as H4.
  pose proof (strncasecmp_prefix "0:" (skip 10 identifier) eq_refl) as H5.
  cbn [String.length] in H1, H2, H3, H4, H5.
  rewrite H1, H2, H3, H4, H5. clear H1 H2 H3 H4 H5.
  destruct (starts_with "::" identifier) eqn:A.
  - apply starts_with_split in A. cbn [String.length] in A.
    destruct (starts_with_ci "ffff:" (skip 2 identifier)) eqn:B; extracted_is.
    + apply starts_with_ci_split in B. destruct B as (pre & B & L).
      cbn [String.length] in B.
      exists ("::" ++ pre). split.
      * rewrite append_assoc, <- B. exact A.
      * unfold mixed_prefix. rewrite lower_append, L. reflexivity.
    + exists "::". split; [exact A | reflexivity].
  - destruct (starts_with_ci "0:0:0:0:0:" identifier) eqn:B; [|discriminate].
    apply starts_with_ci_split in B. destruct B as (pre & B & L).
    cbn [String.length] in B.
    destruct (starts_with_ci "0:" (skip 10 identifier)) eqn:C.
    + extracted_is.
      apply starts_with_ci_split in C. destruct C as (pre2 & C & L2).
      cbn [String.length] in C.
      exists (pre ++ pre2). split.
      * rewrite append_assoc, <- C. exact B.
      * unfold mixed_prefix. rewrite lower_append, L, L2. reflexivity.
    + destruct (starts_with_ci "ffff:" (skip 10 identifier)) eqn:D; extracted_is.
      * apply starts_with_ci_split in D. destruct D as (pre2 & D & L2).
        cbn [String.length] in D.
        exists (pre ++ pre2). split.
        -- rewrite append_assoc, <- D. exact B.
        -- unfold mixed_prefix. rewrite lower_append, L, L2. reflexivity.
      * exists pre. split; [exact B|].
        unfold mixed_prefix. rewrite L. reflexivity.
Qed.

Lemma embedded_ipv4_is_suffix_witness :
  exists pre, "0:0:0:0:0:FFFF:203.0.113.5" = pre ++ "203.0.113.5"
              /\ mixed_prefix pre = true.
Proof.
  apply (embedded_ipv4_is_suffix "0:0:0:0:0:FFFF:203.0.113.5" "203.0.113.5").
  reflexivity.
Defined.

(** X9 (round trip).  Writing any text behind one of the prefixes
    "::ffff:", "0:0:0:0:0:0:" or "0:0:0:0:0:ffff:", in any mix of upper and
    lower case, and extracting gives exactly that text back.  Behind the
    bare "::" the same holds unless the text itself begins with "ffff:". *)
Theorem embedded_ipv4_round_trip (pre a : string) :
  (full_mixed_prefix pre = true -> embedded_ipv4 (pre ++ a) = Some a)
  /\ (starts_with_ci "ffff:" a = false -> embedded_ipv4 ("::" ++ a) = Some a).
Proof.
  split.
  - intros H. now apply full_mixed_prefix_stripped.
  - intros H. unfold embedded_ipv4. change (strncmp ("::" ++ a) "::" 2) with 0.
    cbn [Z.eqb]. change (skip 2 ("::" ++ a)) with a.
    pose proof (strncasecmp_prefix "ffff:" a eq_refl) as P.
    cbn [String.length] in P. now rewrite P, H.
Qed.

Lemma embedded_ipv4_round_trip_witness :
  embedded_ipv4 ("::FfFf:" ++ "203.0.113.5") = Some "203.0.113.5"
  /\ embedded_ipv4 ("::" ++ "203.0.113.5") = Some "203.0.113.5".
Proof.
  split.
  - apply (proj1 (embedded_ipv4_round_trip "::FfFf:" "203.0.113.5")). reflexivity.
  - apply (proj2 (embedded_ipv4_round_trip "" "203.0.113.5")). reflexivity.
Defined.

(** X7 (mixed notation, same directive).  A login reported in the mixed
    notation, an IPv4 text behind "::ffff:", "0:0:0:0:0:0:" or
    "0:0:0:0:0:ffff:" in any case, which the resolver rejects as a whole but
    accepts as the bare IPv4 text, has the same effect on the pseudo-files
    as the login reported by the bare text: same result, same path opened,
    same line written. *)
Theorem mixed_notation_same_directive (PATH_MAX : nat) (w : world)
    (argv : list string) (pre a : string) (herr : Z) (entry : hostent) :
  valid_args argv = true ->
  full_mixed_prefix pre = true ->
  w_pam_rhost w = (PAM_SUCCESS, Some (pre ++ a)) ->
  w_gethostbyname w (pre ++ a) = inl herr ->
  w_gethostbyname w a = inr entry ->
  fst (hook PATH_MAX w argv) = fst (hook PATH_MAX (with_rhost w a) argv)
  /\ writes (snd (hook PATH_MAX w argv))
     = writes (snd (hook PATH_MAX (with_rhost w a) argv))
  /\ opens (snd (hook PATH_MAX w argv))
     = opens (snd (hook PATH_MAX (with_rhost w a) argv))
  /\ lookups (snd (hook PATH_MAX w argv)) = [pre ++ a; a].
Proof.
  intros Hv Hpre Hi' Hg1 Hg2.
  destruct (full_mixed_prefix_stripped pre a Hpre) as (Hx & q & Hq).
  assert (Hres1 : resolve w (pre ++ a) = inr entry)
    by (unfold resolve; now rewrite Hg1, Hq, Hx).
  assert (Hres2 : resolve (with_rhost w a) a = inr entry)
    by (now apply resolve_direct).
  destruct (after_resolution PATH_MAX w argv _ _ Hv Hi' Hres1) as (F1 & W1 & O1).
  destruct (after_resolution PATH_MAX (with_rhost w a) argv _ _ Hv eq_refl Hres2)
    as (F2 & W2 & O2).
  split; [rewrite F1, F2; reflexivity|].
  split; [rewrite W1, W2; reflexivity|].
  split; [rewrite O1, O2; reflexivity|].
  assert (Hnames : names_looked_up w (pre ++ a) = [pre ++ a; a])
    by (unfold names_looked_up; now rewrite Hg1, Hq, Hx).
  destruct (valid_args_mode _ Hv) as (Hc' & rem & Hm' & _).
  paths PATH_MAX w argv; try congruence;
    rewrite Hi' in Hi; injection Hi as <-;
    rewrite !lookups_app, lookups_names, Hnames; reflexivity.
Qed.

Lemma mixed_notation_same_directive_witness :
  writes (snd (hook 4096 mapped_host ["-"]))
  = writes (snd (hook 4096 (with_rhost mapped_host "203.0.113.5") ["-"]))
  /\ writes (snd (hook 4096 (with_rhost mapped_host "203.0.113.5") ["-"]))
     = [("/proc/net/xt_recent/DEFAULT", "-203.0.113.5" ++ nl)].
Proof.
  split; [|reflexivity].
  apply (mixed_notation_same_directive 4096 mapped_host ["-"] "::ffff:"
           "203.0.113.5" HOST_NOT_FOUND entry_203_0_113_5); reflexivity.
Defined.

(** X13 (no stale error codes).  The function reads errno and h_errno only
    after a call of its own has set them: started from any two process
    states, whatever calls were made before and whatever the two globals
    held, an invocation returns the same result and makes the same calls,
    error records and their codes included. *)
Theorem entry_state_irrelevant (PATH_MAX : nat) (w : world) (argv : list string)
    (s1 s2 : state) :
  fst (onSessionOpen PATH_MAX w argv s1) = fst (onSessionOpen PATH_MAX w argv s2)
  /\ exists calls,
       trace (snd (onSessionOpen PATH_MAX w argv s1)) = (trace s1 ++ calls)%list
       /\ trace (snd (onSessionOpen PATH_MAX w argv s2)) = (trace s2 ++ calls)%list.
Proof.
  destruct (onSessionOpen_hook PATH_MAX w argv s1) as [R1 T1].
  destruct (onSessionOpen_hook PATH_MAX w argv s2) as [R2 T2].
  split; [congruence|].
  exists (snd (hook PATH_MAX w argv)). split; assumption.
Qed.
